(** * Holder snapshots and distribution statistics: a shallow embedding

    The Python scripts under [scripts/] are embedded as Rocq functions:

    - [scrape_holders.py]   : [get_collection_holders], [save_snapshot]
      (the totals it prints), [main]
    - [scrape_token_ids.py] : [get_collection_nfts], [save_token_ids], [main]
    - [process_og_snapshot.py] : [process_og_snapshot]
    - [analyze_distribution.py] : [create_lorenz_curve] (the Gini part), the
      bins of [create_distribution_histogram] and the columns of
      [create_cumulative_distribution]

    Conventions.  Python [str] is modelled by [string] restricted to ASCII
    text (addresses, token ids and field names are ASCII).  Python [int] is
    [Z].  A [float] of a JSON document is a rational.  The statistics of
    [analyze_distribution.py] are computed as numpy computes them: the
    column of amounts is [int64], with wrap-around, and the percentages are
    [float64], the binary64 floats of the kernel. *)

From Stdlib Require Import PrimFloat FloatOps SpecFloat Uint63.
From Stdlib Require Import ZArith QArith Qcanon Lia Ascii String List Sorted Permutation.
From stdpp Require Import base option list sorting strings countable gmap.

Local Open Scope string_scope.
Local Open Scope Z_scope.

(** A decimal float constant stands for the nearest [float64], as in
    Python. *)
Set Warnings "-inexact-float".

(** ** Python string primitives *)

Module PyStr.

(** [s.startswith(p)] *)
Fixpoint startswith (p s : string) : bool :=
  match p, s with
  | EmptyString, _ => true
  | String a p', String b s' => if Ascii.eqb a b then startswith p' s' else false
  | String _ _, EmptyString => false
  end.

(** [s[n:]] *)
Fixpoint slice_from (n : nat) (s : string) : string :=
  match n, s with
  | O, _ => s
  | S n', String _ s' => slice_from n' s'
  | S _, EmptyString => EmptyString
  end.

Definition is_upper (c : ascii) : bool :=
  let n := N_of_ascii c in (65 <=? n)%N && (n <=? 90)%N.

Definition is_lower (c : ascii) : bool :=
  let n := N_of_ascii c in (97 <=? n)%N && (n <=? 122)%N.

Definition lower_char (c : ascii) : ascii :=
  if is_upper c then ascii_of_N (N_of_ascii c + 32) else c.

Definition upper_char (c : ascii) : ascii :=
  if is_lower c then ascii_of_N (N_of_ascii c - 32) else c.

(** [s.lower()] *)
Fixpoint lower (s : string) : string :=
  match s with
  | EmptyString => EmptyString
  | String c s' => String (lower_char c) (lower s')
  end.

(** [s.capitalize()] *)
Definition capitalize (s : string) : string :=
  match s with
  | EmptyString => EmptyString
  | String c s' => String (upper_char c) (lower s')
  end.

(** [s.lstrip(c)] for a one-character argument *)
Fixpoint lstrip_char (c : ascii) (s : string) : string :=
  match s with
  | EmptyString => EmptyString
  | String a s' => if Ascii.eqb a c then lstrip_char c s' else s
  end.

(** ASCII white space as [int] skips it ([Py_ISSPACE]): space, \t, \n, \v,
    \f, \r. *)
Definition is_space (c : ascii) : bool :=
  let n := N_of_ascii c in ((9 <=? n)%N && (n <=? 13)%N) || (n =? 32)%N.

(** ASCII white space as [str.strip] removes it ([str.isspace]): the above
    and the separators 0x1c-0x1f. *)
Definition is_str_space (c : ascii) : bool :=
  let n := N_of_ascii c in is_space c || ((28 <=? n)%N && (n <=? 31)%N).

Fixpoint lstrip_by (p : ascii -> bool) (s : string) : string :=
  match s with
  | EmptyString => EmptyString
  | String a s' => if p a then lstrip_by p s' else s
  end.

Fixpoint all_by (p : ascii -> bool) (s : string) : bool :=
  match s with
  | EmptyString => true
  | String a s' => p a && all_by p s'
  end.

(** The trailing characters are dropped from where the rest of the string
    satisfies [p] throughout. *)
Fixpoint rstrip_by (p : ascii -> bool) (s : string) : string :=
  match s with
  | EmptyString => EmptyString
  | String a s' => if all_by p s then EmptyString else String a (rstrip_by p s')
  end.

Definition lstrip (s : string) : string := lstrip_by is_space s.

Definition all_space (s : string) : bool := all_by is_space s.

(** [s.strip()] *)
Definition strip (s : string) : string :=
  rstrip_by is_str_space (lstrip_by is_str_space s).

(** [sub in s] for two strings *)
Fixpoint contains (sub s : string) : bool :=
  startswith sub s ||
  match s with
  | EmptyString => false
  | String _ s' => contains sub s'
  end.

(** [a < b] and [a <= b] on strings: lexicographic on the code points *)
Fixpoint ltb (a b : string) : bool :=
  match a, b with
  | _, EmptyString => false
  | EmptyString, String _ _ => true
  | String x a', String y b' =>
      if (N_of_ascii x <? N_of_ascii y)%N then true
      else if (N_of_ascii x =? N_of_ascii y)%N then ltb a' b'
      else false
  end.

Definition leb (a b : string) : bool := negb (ltb b a).

End PyStr.

(** ** Python integers: [hex], [int(s)], [int(s, 16)] *)

Module PyInt.

(** The character of a hexadecimal digit value, lower case as [hex] prints. *)
Definition hex_char (d : Z) : ascii :=
  if d <? 10 then ascii_of_N (Z.to_N (48 + d)) else ascii_of_N (Z.to_N (87 + d)).

(** The value of a digit character ([_PyLong_DigitValue]): 0-9, a-z, A-Z. *)
Definition digit_value (c : ascii) : option Z :=
  let n := Z.of_N (N_of_ascii c) in
  if (48 <=? n) && (n <=? 57) then Some (n - 48)
  else if (97 <=? n) && (n <=? 122) then Some (n - 87)
  else if (65 <=? n) && (n <=? 90) then Some (n - 55)
  else None.

(** Digits of [n], most significant first, in front of [acc]. *)
Fixpoint hex_digits_aux (fuel : nat) (n : Z) (acc : string) : string :=
  match fuel with
  | O => acc
  | S fuel' =>
      if n <? 16 then String (hex_char n) acc
      else hex_digits_aux fuel' (n / 16) (String (hex_char (n mod 16)) acc)
  end.

Definition hex_digits (n : Z) : string :=
  hex_digits_aux (S (Z.to_nat (Z.log2 n))) n EmptyString.

(** [hex(z)] *)
Definition hex (z : Z) : string :=
  if z <? 0 then "-0x" ++ hex_digits (- z) else "0x" ++ hex_digits z.

(** The digit scanner of [PyLong_FromString]: digits below [base] with single
    underscores between them.  [prev_us] says the previous character was an
    underscore, [seen] that a digit was read.  The result is the value and
    the unread rest; [None] is the [ValueError]. *)
Fixpoint scan_digits (base : Z) (s : string) (prev_us seen : bool) (acc : Z)
  : option (Z * string) :=
  let stop := if prev_us || negb seen then None else Some (acc, s) in
  match s with
  | EmptyString => stop
  | String c s' =>
      if Ascii.eqb c "_" then
        if prev_us then None else scan_digits base s' true seen acc
      else
        match digit_value c with
        | Some d =>
            if d <? base then scan_digits base s' false true (acc * base + d)
            else stop
        | None => stop
        end
  end.

Definition skip_sign (s : string) : bool * string :=
  match s with
  | String "+" s' => (false, s')
  | String "-" s' => (true, s')
  | _ => (false, s)
  end.

(** The optional [0x]/[0X] of base 16, and the one underscore allowed after it. *)
Definition skip_prefix (base : Z) (s : string) : string :=
  match s with
  | String "0" (String c s') =>
      if (base =? 16) && (Ascii.eqb c "x" || Ascii.eqb c "X") then
        match s' with
        | String "_" s'' => s''
        | _ => s'
        end
      else s
  | _ => s
  end.

(** [int(s, base)] on a string, for the bases the scripts use (10 and 16). *)
Definition int_of_string (base : Z) (s : string) : option Z :=
  let '(neg, s1) := skip_sign (PyStr.lstrip s) in
  let s2 := skip_prefix base s1 in
  if PyStr.startswith "_" s2 then None
  else
    match scan_digits base s2 false false 0 with
    | Some (v, rest) =>
        if PyStr.all_space rest then Some (if neg then - v else v) else None
    | None => None
    end.

End PyInt.

(** ** JSON values, with the Python operations the scripts apply to them *)

(** The value of [response.json()].  A [JDict] lists the items of the parsed
    object (its keys are distinct); a [JFloat] is a finite float. *)
#[warnings="-register-all"] Inductive json : Type :=
| JNull
| JBool (b : bool)
| JInt (z : Z)
| JFloat (q : Qc)
| JStr (s : string)
| JList (l : list json)
| JDict (d : list (string * json)).

Module Py.

Definition Qc_of_Z (z : Z) : Qc := Q2Qc (inject_Z z).

(** Truth value of an object, as tested by [if], [and], [not]. *)
Definition truthy (v : json) : bool :=
  match v with
  | JNull => false
  | JBool b => b
  | JInt z => negb (z =? 0)
  | JFloat q => negb (bool_decide (q = Qc_of_Z 0))
  | JStr s => negb (String.eqb s "")
  | JList l => match l with [] => false | _ :: _ => true end
  | JDict d => match d with [] => false | _ :: _ => true end
  end.

Fixpoint dict_lookup (d : list (string * json)) (k : string) : option json :=
  match d with
  | [] => None
  | (k', v) :: d' => if String.eqb k' k then Some v else dict_lookup d' k
  end.

Definition is_str (k : string) (v : json) : bool :=
  match v with
  | JStr s => String.eqb s k
  | _ => false
  end.

(** [k in v] for a string [k]: key of a dict, element of a list, substring of
    a string; [None] is the [TypeError] of the other types. *)
Definition contains (k : string) (v : json) : option bool :=
  match v with
  | JDict d => Some (bool_decide (is_Some (dict_lookup d k)))
  | JList l => Some (existsb (is_str k) l)
  | JStr s => Some (PyStr.contains k s)
  | _ => None
  end.

(** [v[k]] for a string [k]; [None] is [KeyError] or [TypeError]. *)
Definition getitem (v : json) (k : string) : option json :=
  match v with
  | JDict d => dict_lookup d k
  | _ => None
  end.

(** [v.get(k, dflt)]; [None] is the [AttributeError] of a non-dict. *)
Definition get (v : json) (k : string) (dflt : json) : option json :=
  match v with
  | JDict d => Some (default dflt (dict_lookup d k))
  | _ => None
  end.

Fixpoint chars (s : string) : list json :=
  match s with
  | EmptyString => []
  | String c s' => JStr (String c EmptyString) :: chars s'
  end.

(** The elements [for x in v] runs over; [None] is the [TypeError] of a
    value that is not iterable. *)
Definition iter (v : json) : option (list json) :=
  match v with
  | JList l => Some l
  | JDict d => Some (map (fun kv => JStr (fst kv)) d)
  | JStr s => Some (chars s)
  | _ => None
  end.

End Py.

(** ** [scrape_holders.py] *)

(** The members of a token-id set.  Numbers are kept by value, since Python
    sets identify [True], [1] and [1.0]. *)
Inductive tok : Type :=
| TNone
| TNum (q : Qc)
| TStr (s : string).

#[global] Instance tok_eq_dec : EqDecision tok.
Proof. solve_decision. Defined.

#[global] Instance tok_countable : Countable tok :=
  inj_countable'
    (fun t => match t with
              | TNone => inl tt
              | TNum q => inr (inl q)
              | TStr s => inr (inr s)
              end)
    (fun e => match e with
              | inl _ => TNone
              | inr (inl q) => TNum q
              | inr (inr s) => TStr s
              end)
    (fun t => match t with TNone => eq_refl | TNum _ => eq_refl | TStr _ => eq_refl end).

(** [hash(v)] succeeds on scalars; lists and dicts are unhashable. *)
Definition hashable (v : json) : option tok :=
  match v with
  | JNull => Some TNone
  | JBool b => Some (TNum (Py.Qc_of_Z (Z.b2z b)))
  | JInt z => Some (TNum (Py.Qc_of_Z z))
  | JFloat q => Some (TNum q)
  | JStr s => Some (TStr s)
  | JList _ | JDict _ => None
  end.

(** Whether a block ran to its end or raised an exception (every exception
    raised inside the [try] is caught by [except Exception] and ends the
    page loop). *)
Inductive status : Type := Completed | Raised.

(** Lines 94-100 and 103-109: the first alias present in the record. *)
Definition first_alias (nft : json) (a1 a2 a3 : string) : option json :=
  b1 ← Py.contains a1 nft;
  if b1 : bool then Py.getitem nft a1 else
  b2 ← Py.contains a2 nft;
  if b2 : bool then Py.getitem nft a2 else
  b3 ← Py.contains a3 nft;
  if b3 : bool then Py.getitem nft a3 else Some JNull.

Definition owner_address_of (nft : json) : option json :=
  first_alias nft "ownerAddress" "owner_address" "owner".

Definition token_id_of (nft : json) : option json :=
  first_alias nft "tokenId" "token_id" "id".

(** Lines 113-123: the formatting of the owner address. *)
Definition format_owner (network owner_address : string) : string :=
  let o1 := if PyStr.startswith "0x" owner_address then owner_address
            else "0x" ++ owner_address in
  let o2 := PyStr.lower o1 in
  if String.eqb (PyStr.lower network) "starknet" then
    let o3 := "0x" ++ PyStr.lstrip_char "0" (PyStr.slice_from 2 o2) in
    if String.eqb o3 "0x" then "0x0" else o3
  else o2.

(** What follows [0x] in a Starknet address: the digit [0] alone, or digits
    without a leading zero. *)
Definition stripped (t : string) : Prop :=
  t = "0" \/ (t <> "" /\ PyStr.lstrip_char "0" t = t).

Definition is_lower_hex_digit (c : ascii) : bool :=
  let n := N_of_ascii c in
  ((48 <=? n)%N && (n <=? 57)%N) || ((97 <=? n)%N && (n <=? 102)%N).

Fixpoint all_lower_hex (s : string) : bool :=
  match s with
  | EmptyString => true
  | String c s' => is_lower_hex_digit c && all_lower_hex s'
  end.

(** A lower-case, minimal-digit, [0x]-prefixed hex string: at least one
    digit, and no leading zero but in [0x0]. *)
Definition minimal_hex (s : string) : bool :=
  match s with
  | String "0" (String "x" (String c d)) =>
      all_lower_hex (String c d) && (negb (Ascii.eqb c "0") || String.eqb d "")
  | _ => false
  end.

(** Lines 126-131: the token id as a hex string.  [bool] is a subclass of
    [int]; a value that is neither an [int] nor a string without [0x] is
    kept as it is. *)
Definition token_id_hex (token_id : json) : option json :=
  match token_id with
  | JInt z => Some (JStr (PyInt.hex z))
  | JBool b => Some (JStr (PyInt.hex (Z.b2z b)))
  | JStr s =>
      if PyStr.startswith "0x" s then Some token_id
      else z ← PyInt.int_of_string 10 s; Some (JStr (PyInt.hex z))
  | _ => Some token_id
  end.

(** [holders_tokens[owner]] on the [defaultdict(set)]: reading a missing key
    stores an empty set under it. *)
Definition holders_touch (owner : string) (holders_tokens : gmap string (gset tok))
  : gmap string (gset tok) :=
  <[owner := default ∅ (holders_tokens !! owner)]> holders_tokens.

(** [holders_tokens[owner].add(e)] *)
Definition holders_add (owner : string) (e : tok) (holders_tokens : gmap string (gset tok))
  : gmap string (gset tok) :=
  <[owner := default ∅ (holders_tokens !! owner) ∪ {[e]}]> holders_tokens.

(** Lines 92-133, the body of [for nft in nfts], on the holder map
    [holders_tokens].  An unhashable token id makes [add] raise after the
    key was read. *)
Definition process_nft (network : string) (nft : json)
    (holders_tokens : gmap string (gset tok)) : gmap string (gset tok) * status :=
  match owner_address_of nft with
  | None => (holders_tokens, Raised)
  | Some owner_address =>
      match token_id_of nft with
      | None => (holders_tokens, Raised)
      | Some token_id =>
          if Py.truthy owner_address && Py.truthy token_id then
            match owner_address with
            | JStr o =>
                let owner := format_owner network o in
                match token_id_hex token_id with
                | None => (holders_tokens, Raised)
                | Some t =>
                    match hashable t with
                    | Some e => (holders_add owner e holders_tokens, Completed)
                    | None => (holders_touch owner holders_tokens, Raised)
                    end
                end
            | _ => (holders_tokens, Raised)
            end
          else (holders_tokens, Completed)
      end
  end.

Fixpoint process_nfts (network : string) (nfts : list json)
    (holders_tokens : gmap string (gset tok)) : gmap string (gset tok) * status :=
  match nfts with
  | [] => (holders_tokens, Completed)
  | nft :: rest =>
      match process_nft network nft holders_tokens with
      | (h, Completed) => process_nfts network rest h
      | (h, Raised) => (h, Raised)
      end
  end.

(** *** The page loop, shared by the two scrapers

    Lines 54-156 of [scrape_holders.py] and 44-125 of [scrape_token_ids.py]
    are the same loop around different [for nft in nfts] bodies. *)

(** The query parameters [params] of one request ([pageSize] is sent as
    [str(page_size)]). *)
Record request : Type := {
  contractAddress : string;
  pageSize : Z;
  startTokenId : option string;
  endTokenId : option string;
  pageKey : option json
}.

(** What [requests.get(...)], [raise_for_status()] and [response.json()]
    give: an exception, or the decoded body. *)
Inductive http : Type :=
| HttpError
| HttpJson (result : json).

(** How an iteration of [while True] ends. *)
Inductive flow : Type :=
| Continue (page_key : json)
| Break.

(** [if x:] on an optional string argument *)
Definition if_set (x : option string) : option string :=
  match x with
  | Some s => if String.eqb s "" then None else Some s
  | None => None
  end.

(** Lines 56-67 *)
Definition build_params (contract_address : string) (page_size : Z)
    (start_token_id end_token_id : option string) (page_key : json) : request :=
  {| contractAddress := contract_address;
     pageSize := page_size;
     startTokenId := if_set start_token_id;
     endTokenId := if_set end_token_id;
     pageKey := if Py.truthy page_key then Some page_key else None |}.

(** The [try] block for one response.  [body] is the [for nft in nfts] loop. *)
Definition page_step {S : Type} (body : list json -> S -> S * status)
    (response : http) (acc : S) : S * flow :=
  match response with
  | HttpError => (acc, Break)
  | HttpJson result =>
      match Py.contains "error" result with
      | None | Some true => (acc, Break)
      | Some false =>
          match (b ← Py.contains "result" result;
                 if b : bool then Py.get result "result" (JDict []) else Some result) with
          | None => (acc, Break)
          | Some data =>
              match (nfts ← Py.get data "nfts" (JList []); Py.iter nfts) with
              | None => (acc, Break)
              | Some nfts =>
                  match body nfts acc with
                  | (acc', Raised) => (acc', Break)
                  | (acc', Completed) =>
                      match Py.get data "nextPageKey" JNull with
                      | None => (acc', Break)
                      | Some next_page_key =>
                          if negb (Py.truthy next_page_key) || (length nfts =? 0)%nat
                          then (acc', Break)
                          else (acc', Continue next_page_key)
                      end
                  end
              end
          end
      end
  end.

(** [while True].  The remote API is a script: its n-th element answers the
    n-th request.  [None] says the loop asked for more answers than the
    script holds. *)
Fixpoint page_loop {S : Type} (body : list json -> S -> S * status)
    (params : json -> request) (api : list (request -> http))
    (page_key : json) (acc : S) : option S :=
  match api with
  | [] => None
  | respond :: api' =>
      match page_step body (respond (params page_key)) acc with
      | (acc', Break) => Some acc'
      | (acc', Continue next_page_key) =>
          page_loop body params api' next_page_key acc'
      end
  end.

(** The page key and the accumulator after the answers [api], when every
    one of them lets the loop go on to the next page. *)
Fixpoint after_pages {S : Type} (body : list json -> S -> S * status)
    (params : json -> request) (api : list (request -> http))
    (page_key : json) (acc : S) : option (json * S) :=
  match api with
  | [] => Some (page_key, acc)
  | respond :: api' =>
      match page_step body (respond (params page_key)) acc with
      | (acc', Continue next_page_key) =>
          after_pages body params api' next_page_key acc'
      | (_, Break) => None
      end
  end.

(** A failed fetch: an exception of the transport, or a body that carries
    an [error] field. *)
Definition fetch_failed (response : http) : bool :=
  match response with
  | HttpError => true
  | HttpJson (JDict d) => bool_decide (is_Some (Py.dict_lookup d "error"))
  | HttpJson _ => false
  end.

(** *** The snapshot document (lines 158-186) *)

Record snapshot_doc : Type := {
  block_height : Z;
  chain_id : string;
  claim_contract : string;
  contract_address : string;
  description : string;
  entrypoint : string;
  name : string;
  network : string;
  snapshot : list (string * list string)
}.

(** The order of [sorted(holders_tokens.items())]: the keys of a dict are
    distinct, so two items compare as their addresses do. *)
Definition addr_le {A : Type} : relation (string * A) :=
  fun x y => Is_true (PyStr.leb (fst x) (fst y)).

#[global] Instance addr_le_dec {A : Type} : RelDecision (@addr_le A).
Proof. intros x y. unfold addr_le. apply _. Defined.

(** [int(x, 16)] as a sort key: a [TypeError] on a value that is no string. *)
Definition hex_key (t : tok) : option (Z * string) :=
  match t with
  | TStr s => z ← PyInt.int_of_string 16 s; Some (z, s)
  | _ => None
  end.

Definition key_le : relation (Z * string) := fun a b => fst a <= fst b.

#[global] Instance key_le_dec : RelDecision key_le.
Proof. intros x y. unfold key_le. apply _. Defined.

(** [sorted(list(token_ids), key=lambda x: int(x, 16))]: the keys are
    computed first, and one that raises ends the function. *)
Definition sort_token_ids (token_ids : gset tok) : option (list string) :=
  keyed ← mapM hex_key (elements token_ids);
  Some (map snd (merge_sort key_le keyed)).

Definition snapshot_data_of (holders_tokens : gmap string (gset tok))
  : option (list (string * list string)) :=
  mapM (fun item : string * gset tok =>
          sorted_token_ids ← sort_token_ids (snd item);
          Some (fst item, sorted_token_ids))
       (merge_sort addr_le (map_to_list holders_tokens)).

Definition chain_id_map (key : string) : option string :=
  if String.eqb key "ethereum" then Some "0x1"
  else if String.eqb key "starknet" then Some "0x534e5f4d41494e"
  else if String.eqb key "base" then Some "0x2105"
  else if String.eqb key "arbitrum" then Some "0xa4b1"
  else None.

(** How a function ends: it returns, an exception leaves it, or the script
    of API answers ran out while it was still fetching. *)
Inductive outcome (A : Type) : Type :=
| Returned (a : A)
| Uncaught
| OutOfScript.

Arguments Returned {A} a.
Arguments Uncaught {A}.
Arguments OutOfScript {A}.

(** The holder map at the end of the page loop. *)
Definition collect_holders (api : list (request -> http))
    (contract_address network : string) (start_token_id end_token_id : option string)
    (page_size : Z) : option (gmap string (gset tok)) :=
  page_loop (process_nfts network)
    (build_params contract_address page_size start_token_id end_token_id)
    api JNull ∅.

(** Lines 158-186: the document built from the holder map. *)
Definition build_snapshot (holders_tokens : gmap string (gset tok))
    (contract_address network collection_name description : string)
    (block_height : option Z) : outcome snapshot_doc :=
  match snapshot_data_of holders_tokens with
  | None => Uncaught
  | Some snapshot_data =>
      Returned
        {| block_height := default 0 block_height;
           chain_id := default "0x1" (chain_id_map (PyStr.lower network));
           claim_contract := "0x1";
           contract_address := PyStr.lower contract_address;
           description := description;
           entrypoint := "claim_from_forwarder";
           name := collection_name;
           network := PyStr.capitalize network;
           snapshot := snapshot_data |}
  end.

(** [get_collection_holders].  [delay_ms] only sleeps between pages. *)
Definition get_collection_holders (api : list (request -> http))
    (contract_address network collection_name description : string)
    (start_token_id end_token_id : option string) (page_size delay_ms : Z)
    (block_height : option Z) : outcome snapshot_doc :=
  match collect_holders api contract_address network start_token_id end_token_id page_size with
  | None => OutOfScript
  | Some holders_tokens =>
      build_snapshot holders_tokens contract_address network collection_name
        description block_height
  end.

(** *** [main] of [scrape_holders.py] *)

Record holders_args : Type := {
  arg_contract_address : string;
  arg_name : string;
  arg_network : string;
  arg_output : option string;
  arg_description : option string;
  arg_start_token_id : option string;
  arg_end_token_id : option string;
  arg_page_size : Z;
  arg_delay_ms : Z;
  arg_block_height : option Z
}.

(** What a run of a tool leaves behind: the file it wrote, if any, and the
    exit status of the process. *)
Record run (F : Type) : Type := {
  saved : option (string * F);
  exit_status : Z
}.

Arguments saved {F} r.
Arguments exit_status {F} r.

Fixpoint replace_char (a b : ascii) (s : string) : string :=
  match s with
  | EmptyString => EmptyString
  | String c s' => String (if Ascii.eqb c a then b else c) (replace_char a b s')
  end.

(** Lines 261-264: the output path. *)
Definition holders_output (args : holders_args) : string :=
  match if_set (arg_output args) with
  | Some o => o
  | None =>
      replace_char " " "_" (PyStr.lower (arg_name args))
        ++ "_snapshot_" ++ arg_network args ++ ".json"
  end.

(** Lines 266-287: the call of [get_collection_holders] that [main] makes. *)
Definition holders_call (api : list (request -> http)) (args : holders_args)
  : outcome snapshot_doc :=
  let description :=
    match if_set (arg_description args) with
    | Some d => d
    | None => arg_name args ++ " snapshot"
    end in
  let page_size := if 100 <? arg_page_size args then 100 else arg_page_size args in
  get_collection_holders api (arg_contract_address args) (arg_network args)
    (arg_name args) description (arg_start_token_id args)
    (arg_end_token_id args) page_size (arg_delay_ms args)
    (arg_block_height args).

Module ScrapeHolders.

(** [main]: [None] while the page loop is out of script; an exception that
    leaves [get_collection_holders] ends the process with status 1. *)
Definition main (api : list (request -> http)) (args : holders_args)
  : option (run snapshot_doc) :=
  match holders_call api args with
  | OutOfScript => None
  | Uncaught => Some {| saved := None; exit_status := 1 |}
  | Returned snap =>
      match snapshot snap with
      | _ :: _ => Some {| saved := Some (holders_output args, snap); exit_status := 0 |}
      | [] => Some {| saved := None; exit_status := 1 |}
      end
  end.

End ScrapeHolders.

(** ** [scrape_token_ids.py] *)

(** [int(x)] on a float truncates towards zero. *)
Definition int_of_float (q : Qc) : Z := Z.quot (Qnum q) (Zpos (Qden q)).

(** Lines 82-102, the body of [for nft in nfts], on the list [token_ids]. *)
Definition append_token_id (nft : json) (token_ids : list Z) : list Z * status :=
  match token_id_of nft with
  | None => (token_ids, Raised)
  | Some JNull => (token_ids, Completed)
  | Some (JStr s) =>
      match (if PyStr.startswith "0x" s then PyInt.int_of_string 16 s
             else PyInt.int_of_string 10 s) with
      | Some z => ((token_ids ++ [z])%list, Completed)
      | None => (token_ids, Raised)
      end
  | Some (JInt z) => ((token_ids ++ [z])%list, Completed)
  | Some (JBool b) => ((token_ids ++ [Z.b2z b])%list, Completed)
  | Some (JFloat q) => ((token_ids ++ [int_of_float q])%list, Completed)
  | Some (JList _) | Some (JDict _) => (token_ids, Raised)
  end.

Fixpoint append_token_ids (nfts : list json) (token_ids : list Z) : list Z * status :=
  match nfts with
  | [] => (token_ids, Completed)
  | nft :: rest =>
      match append_token_id nft token_ids with
      | (ids, Completed) => append_token_ids rest ids
      | (ids, Raised) => (ids, Raised)
      end
  end.

(** [get_collection_nfts] *)
Definition get_collection_nfts (api : list (request -> http))
    (contract_address : string) (start_token_id end_token_id : option string)
    (page_size delay_ms : Z) : option (list Z) :=
  page_loop append_token_ids
    (build_params contract_address page_size start_token_id end_token_id)
    api JNull [].

Record token_ids_args : Type := {
  targ_contract_address : string;
  targ_output : string;
  targ_format : string;
  targ_start_token_id : option string;
  targ_end_token_id : option string;
  targ_page_size : Z;
  targ_delay_ms : Z
}.

(** [save_token_ids] writes [sorted(list(set(token_ids)))] in the format asked. *)
Definition unique_ids (token_ids : list Z) : list Z :=
  merge_sort Z.le (elements (list_to_set token_ids : gset Z)).

(** Lines 208-221: the call of [get_collection_nfts] that [main] makes. *)
Definition token_ids_call (api : list (request -> http)) (args : token_ids_args)
  : option (list Z) :=
  let page_size := if 100 <? targ_page_size args then 100 else targ_page_size args in
  get_collection_nfts api (targ_contract_address args)
    (targ_start_token_id args) (targ_end_token_id args) page_size
    (targ_delay_ms args).

Module ScrapeTokenIds.

(** [main]: [None] while the page loop is out of script. *)
Definition main (api : list (request -> http)) (args : token_ids_args)
  : option (run (string * list Z)) :=
  match token_ids_call api args with
  | None => None
  | Some token_ids =>
      match token_ids with
      | _ :: _ =>
          Some {| saved := Some (targ_output args, (targ_format args, unique_ids token_ids));
                  exit_status := 0 |}
      | [] => Some {| saved := None; exit_status := 1 |}
      end
  end.

End ScrapeTokenIds.

(** ** [process_og_snapshot.py] *)

Record og_row : Type := {
  discordMemberId : string;
  starknetWalletAddress : string;
  starknetNetwork : string
}.

(** Lines 15-30: the Sepolia wallet addresses, in the order of the rows. *)
Fixpoint sepolia_addresses (rows : list og_row) : list string :=
  match rows with
  | [] => []
  | row :: rest =>
      let wallet_address := PyStr.strip (starknetWalletAddress row) in
      if String.eqb wallet_address "" then sepolia_addresses rest
      else if String.eqb (starknetNetwork row) "sepolia"
      then wallet_address :: sepolia_addresses rest
      else sepolia_addresses rest
  end.

(** Lines 33-41: duplicates removed, the first occurrence kept. *)
Fixpoint unique_in_order (seen : gset string) (addrs : list string) : list string :=
  match addrs with
  | [] => []
  | addr :: rest =>
      if decide (addr ∈ seen) then unique_in_order seen rest
      else addr :: unique_in_order ({[addr]} ∪ seen) rest
  end.

(** Lines 59-64: [enumerate], one sequential token id per address. *)
Fixpoint og_entries (idx : Z) (addrs : list string) : list (string * list string) :=
  match addrs with
  | [] => []
  | address :: rest => (address, [PyInt.hex (idx + 1)]) :: og_entries (idx + 1) rest
  end.

Definition process_og_snapshot (rows : list og_row) : snapshot_doc :=
  {| block_height := 0;
     chain_id := "0x534e5f5345504f4c4941";
     claim_contract := "0x1";
     contract_address := "0x1";
     description := "OG snapshot for Sepolia";
     entrypoint := "claim_from_forwarder";
     name := "OG";
     network := "Sepolia";
     snapshot := og_entries 0 (unique_in_order ∅ (sepolia_addresses rows)) |}.

(** ** numpy: [int64] and [float64]

    [pd.read_csv] gives the column [df['amount']] as an [int64] array, and
    the percentages computed from it are [float64] arrays.  An [int64] is
    modelled by its value in [Z], and an operation on [int64] wraps around
    modulo 2^64; a [float64] is a binary64 float of the kernel, with the
    IEEE 754 operations (round to nearest, ties to even; [nan] and the
    infinities included). *)

Module Np.

(** The [int64] that holds the integer [z]. *)
Definition int64 (z : Z) : Z := (z + 2 ^ 63) mod 2 ^ 64 - 2 ^ 63.

(** [Series.sum()] and [ndarray.sum()] of an [int64] column. *)
Definition sum_int64 (a : list Z) : Z := fold_left (fun acc x => int64 (acc + x)) a 0.

(** The [float64] an [int64] is converted to by [/]: the nearest float. *)
Definition float64 (z : Z) : float :=
  if z =? - 2 ^ 63 then PrimFloat.opp (PrimFloat.mul (PrimFloat.of_uint63 (Uint63.of_Z (2 ^ 62))) 2)
  else if z <? 0 then PrimFloat.opp (PrimFloat.of_uint63 (Uint63.of_Z (- z)))
  else PrimFloat.of_uint63 (Uint63.of_Z z).

(** [res += a[i]] for the terms of [a], in their order. *)
Definition accumulate (res : float) (a : list float) : float :=
  fold_left PrimFloat.add a res.

(** The loop of eight running sums [r]: each round adds the next eight
    terms of [a], one to each sum. *)
Fixpoint unrolled (rounds : nat) (r a : list float) : list float * list float :=
  match rounds with
  | O => (r, a)
  | S rounds' => unrolled rounds' (zip_with PrimFloat.add r (take 8 a)) (drop 8 a)
  end.

(** A block of 8 to 128 terms: eight running sums over the whole rounds of
    eight terms, added up as a tree, then the terms that are left. *)
Definition block_sum (a : list float) : float :=
  let '(r, rest) := unrolled (length a / 8 - 1) (take 8 a) (drop 8 a) in
  match r with
  | [r0; r1; r2; r3; r4; r5; r6; r7] =>
      accumulate (((r0 + r1) + (r2 + r3)) + ((r4 + r5) + (r6 + r7)))%float rest
  | _ => accumulate 0%float a
  end.

(** The pairwise summation numpy uses to add up a [float64] array: fewer
    than 8 terms are added in their order, up to 128 terms as a block, and
    a longer array is split in two halves, the first of a length that is a
    multiple of 8.  [fuel] bounds the depth of the splitting. *)
Fixpoint pairwise_sum (fuel : nat) (a : list float) : float :=
  let n := length a in
  if (n <? 8)%nat then accumulate 0%float a
  else if (n <=? 128)%nat then block_sum a
  else
    match fuel with
    | O => accumulate 0%float a
    | S fuel' =>
        let n2 := (n / 2 - (n / 2) mod 8)%nat in
        (pairwise_sum fuel' (take n2 a) + pairwise_sum fuel' (drop n2 a))%float
    end.

(** [ndarray.sum()] of a [float64] array. *)
Definition sum_float64 (a : list float) : float := pairwise_sum (length a) a.

(** [np.diff(x)]: [x[1:] - x[:-1]] *)
Definition diff (x : list float) : list float := zip_with PrimFloat.sub (drop 1 x) x.

(** [np.trapz(y, x)], for [y] and [x] of one length:
    [(d * (y[1:] + y[:-1]) / 2.0).sum()] with [d = diff(x)]. *)
Definition trapz (y x : list float) : float :=
  sum_float64
    (zip_with (fun d s : float => (d * s / 2)%float)
       (diff x) (zip_with PrimFloat.add (drop 1 y) y)).

End Np.

(** ** [analyze_distribution.py]: the Gini coefficient of [create_lorenz_curve]

    The argument is the column [df['amount']], a list of [int64] values. *)

Module Lorenz.

(** [df.sort_values('amount')], the amounts only *)
Definition sort_values (amounts : list Z) : list Z := merge_sort Z.le amounts.

(** [Series.cumsum()] of an [int64] column *)
Fixpoint cumsum_from (acc : Z) (l : list Z) : list Z :=
  match l with
  | [] => []
  | x :: l' => Np.int64 (acc + x) :: cumsum_from (Np.int64 (acc + x)) l'
  end.

Definition cumsum (l : list Z) : list Z := cumsum_from 0 l.

(** [np.arange(1, total_holders + 1) / total_holders * 100] *)
Definition cumulative_holders_pct (total_holders : nat) : list float :=
  map (fun i : nat =>
         (Np.float64 (Z.of_nat i) / Np.float64 (Z.of_nat total_holders) * 100)%float)
      (seq 1 total_holders).

(** [sorted_df['amount'].cumsum() / total_tokens * 100] *)
Definition cumulative_tokens_pct (sorted_amounts : list Z) (total_tokens : Z) : list float :=
  map (fun c : Z => (Np.float64 c / Np.float64 total_tokens * 100)%float)
      (cumsum sorted_amounts).

Definition area_under_equality : float := 5000%float.

(** [create_lorenz_curve], without the plot: the value [gini] it returns for
    the column [df['amount']]. *)
Definition create_lorenz_curve (amounts : list Z) : float :=
  let sorted_amounts := sort_values amounts in
  let total_tokens := Np.sum_int64 sorted_amounts in
  let total_holders := length sorted_amounts in
  let area_under_lorenz :=
    Np.trapz (cumulative_tokens_pct sorted_amounts total_tokens)
          (cumulative_holders_pct total_holders) in
  let gini := ((area_under_equality - area_under_lorenz) / area_under_equality)%float in
  gini.

End Lorenz.

(** ** Predicates used in the statements *)

(** The rational number a finite [float64] stands for; [None] for [nan]
    and the infinities. *)
Definition float_value (f : float) : option Q :=
  match Prim2SF f with
  | S754_zero _ => Some 0%Q
  | S754_finite s m e =>
      let q := (if 0 <=? e then inject_Z (Z.pos m * 2 ^ e)
                else Z.pos m # Pos.pow 2 (Z.to_pos (- e)))%Q in
      Some (if s then - q else q)%Q
  | _ => None
  end.


(** How the token id [token_id] of a record is written by lines 126-131: an
    integer and a decimal string as [hex] prints their value, a string that
    starts with [0x] as it came. *)
Definition stored_as (token_id : json) (s : string) : Prop :=
  match token_id with
  | JInt z => s = PyInt.hex z
  | JBool b => s = PyInt.hex (Z.b2z b)
  | JStr raw =>
      if PyStr.startswith "0x" raw then s = raw
      else exists z, PyInt.int_of_string 10 raw = Some z /\ s = PyInt.hex z
  | _ => False
  end.







(** Every token id of the document is lower-case minimal hex. *)
Definition token_ids_minimal (doc : snapshot_doc) : Prop :=
  forall a ids s, (a, ids) ∈ snapshot doc -> s ∈ ids -> minimal_hex s = true.

(** ** Sample inputs *)

Module Sample.

(** A record with a decimal token id, and one whose token id is no number. *)
Definition record_ok : json :=
  JDict [("ownerAddress", JStr "0x000ABC"); ("tokenId", JStr "26")].

Definition record_not_a_number : json :=
  JDict [("ownerAddress", JStr "0xb"); ("tokenId", JStr "abc")].

(** A record whose token id is a zero-padded upper-case hex string. *)
Definition record_padded_hex : json :=
  JDict [("ownerAddress", JStr "0xabc"); ("tokenId", JStr "0x00FF")].

(** A record with token id 0. *)
Definition record_token_zero : json :=
  JDict [("ownerAddress", JStr "0xabc"); ("tokenId", JInt 0)].

(** The i-th record of a page: owner [0x] and the digits of [4096 + i],
    token id [i]. *)
Definition record (i : nat) : json :=
  JDict [("ownerAddress", JStr (PyInt.hex (4096 + Z.of_nat i)));
         ("tokenId", JInt (Z.of_nat i))].

(** A first page of 50 records with a next-page key, and the answer
    [{error: "rate limited"}]. *)
Definition page_of_50 : json :=
  JDict [("result", JDict [("nfts", JList (map record (seq 1 50)));
                           ("nextPageKey", JStr "page-2")])].

Definition rate_limited : json := JDict [("error", JStr "rate limited")].

Definition single_page (nfts : list json) : json := JDict [("nfts", JList nfts)].

Definition og_rows : list og_row :=
  [ {| discordMemberId := "1"; starknetWalletAddress := "0xb"; starknetNetwork := "sepolia" |};
    {| discordMemberId := "2"; starknetWalletAddress := "0xa"; starknetNetwork := "sepolia" |} ].

Definition holders_args_sample : holders_args :=
  {| arg_contract_address := "0xC0FFEE"; arg_name := "Demo Set"; arg_network := "starknet";
     arg_output := None; arg_description := None;
     arg_start_token_id := None; arg_end_token_id := None;
     arg_page_size := 500; arg_delay_ms := 0; arg_block_height := None |}.

Definition token_ids_args_sample : token_ids_args :=
  {| targ_contract_address := "0xC0FFEE"; targ_output := "token_ids.txt";
     targ_format := "txt"; targ_start_token_id := None; targ_end_token_id := None;
     targ_page_size := 100; targ_delay_ms := 200 |}.

End Sample.

(** ** More of the scripts *)

(** *** The requests of the page loop *)

(** The requests [requests.get(api_url, params=params)] sends, one per
    iteration of [while True], for the answers of the script. *)
Fixpoint requests_sent {S : Type} (body : list json -> S -> S * status)
    (params : json -> request) (api : list (request -> http))
    (page_key : json) (acc : S) : list request :=
  match api with
  | [] => []
  | respond :: api' =>
      params page_key ::
      match page_step body (respond (params page_key)) acc with
      | (_, Break) => []
      | (acc', Continue next_page_key) =>
          requests_sent body params api' next_page_key acc'
      end
  end.

(** The requests of a run of [main] of [scrape_holders.py]. *)
Definition holders_requests (api : list (request -> http)) (args : holders_args)
  : list request :=
  let page_size := if 100 <? arg_page_size args then 100 else arg_page_size args in
  requests_sent (process_nfts (arg_network args))
    (build_params (arg_contract_address args) page_size
       (arg_start_token_id args) (arg_end_token_id args))
    api JNull ∅.

(** The requests of a run of [main] of [scrape_token_ids.py]. *)
Definition token_ids_requests (api : list (request -> http)) (args : token_ids_args)
  : list request :=
  let page_size := if 100 <? targ_page_size args then 100 else targ_page_size args in
  requests_sent append_token_ids
    (build_params (targ_contract_address args) page_size
       (targ_start_token_id args) (targ_end_token_id args))
    api JNull [].

(** Lines 84-89 of [scrape_holders.py]: the records [nfts] of a decoded
    answer that has no [error] field. *)
Definition nfts_of (result : json) : option (list json) :=
  data ← (b ← Py.contains "result" result;
          if b : bool then Py.get result "result" (JDict []) else Some result);
  nfts ← Py.get data "nfts" (JList []);
  Py.iter nfts.

(** Line 141: [data.get("nextPageKey")] of the same answer. *)
Definition next_page_key_of (result : json) : option json :=
  data ← (b ← Py.contains "result" result;
          if b : bool then Py.get result "result" (JDict []) else Some result);
  Py.get data "nextPageKey" JNull.

(** *** [save_snapshot] (lines 203-207): the two totals it prints *)

Definition total_unique_holders (snap : snapshot_doc) : nat :=
  length (snapshot snap).

Definition total_nfts (snap : snapshot_doc) : nat :=
  fold_right Nat.add 0%nat (map (fun holder => length (snd holder)) (snapshot snap)).

(** *** [save_token_ids] *)

(** [range(0, stop, step)] *)
Definition range_step (stop step : nat) : list nat :=
  map (fun k => (k * step)%nat) (seq 0 ((stop + step - 1) / step)).

(** [l[i : i + n]] *)
Definition slice (i n : nat) (l : list Z) : list Z := take n (drop i l).

(** Lines 150-152: the batches of the csv format, one per line. *)
Definition csv_batches (unique_ids : list Z) : list (list Z) :=
  map (fun i => slice i 100 unique_ids) (range_step (length unique_ids) 100).

(** Lines 164-165: [min(unique_ids)] and [max(unique_ids)], printed when the
    list is not empty. *)
Definition printed_range (unique_ids : list Z) : option (Z * Z) :=
  match unique_ids with
  | [] => None
  | x :: l => Some (fold_right Z.min x l, fold_right Z.max x l)
  end.

(** *** [process_og_snapshot]: the other lists of lines 7-41 *)

(** The rows with an empty wallet address ([discordMemberId] is kept). *)
Fixpoint empty_addresses (rows : list og_row) : list string :=
  match rows with
  | [] => []
  | row :: rest =>
      let wallet_address := PyStr.strip (starknetWalletAddress row) in
      if String.eqb wallet_address "" then discordMemberId row :: empty_addresses rest
      else empty_addresses rest
  end.

Fixpoint mainnet_addresses (rows : list og_row) : list string :=
  match rows with
  | [] => []
  | row :: rest =>
      let wallet_address := PyStr.strip (starknetWalletAddress row) in
      if String.eqb wallet_address "" then mainnet_addresses rest
      else if String.eqb (starknetNetwork row) "sepolia" then mainnet_addresses rest
      else if String.eqb (starknetNetwork row) "mainnet"
      then wallet_address :: mainnet_addresses rest
      else mainnet_addresses rest
  end.

Fixpoint ethereum_mainnet_addresses (rows : list og_row) : list string :=
  match rows with
  | [] => []
  | row :: rest =>
      let wallet_address := PyStr.strip (starknetWalletAddress row) in
      if String.eqb wallet_address "" then ethereum_mainnet_addresses rest
      else if String.eqb (starknetNetwork row) "sepolia" then ethereum_mainnet_addresses rest
      else if String.eqb (starknetNetwork row) "mainnet" then ethereum_mainnet_addresses rest
      else if String.eqb (starknetNetwork row) "ethereum-mainnet"
      then discordMemberId row :: ethereum_mainnet_addresses rest
      else ethereum_mainnet_addresses rest
  end.

(** Lines 33-41: [duplicate_count], counted by the loop that builds
    [unique_sepolia_addresses]. *)
Fixpoint duplicate_count (seen : gset string) (addrs : list string) : nat :=
  match addrs with
  | [] => 0
  | addr :: rest =>
      if decide (addr ∈ seen) then S (duplicate_count seen rest)
      else duplicate_count ({[addr]} ∪ seen) rest
  end.

(** *** [analyze_distribution.py]: the data of the other charts *)

Module Charts.

(** [df['amount'].max()], an [int64]; [None] stands for the [nan] of an
    empty column. *)
Definition amount_max (amounts : list Z) : option Z :=
  match amounts with
  | [] => None
  | x :: l => Some (fold_right Z.max x l)
  end.

(** Line 26 of [create_distribution_histogram]: the bin edges.  The last
    one is the [int64] sum [max + 1]. *)
Definition bins (amounts : list Z) : option (list Z) :=
  m ← amount_max amounts;
  Some [0; 5; 10; 20; 50; 100; 200; 500; 1000; Np.int64 (m + 1)].

(** Lines 44-46 of [create_cumulative_distribution]: the columns
    [cumulative_holders] and [cumulative_tokens] of the sorted frame. *)
Definition cumulative_holders (amounts : list Z) : list Z :=
  map Z.of_nat (seq 1 (length (Lorenz.sort_values amounts))).

Definition cumulative_tokens (amounts : list Z) : list Z :=
  Lorenz.cumsum (Lorenz.sort_values amounts).

End Charts.

(** The holder map at the end of the page loop of a run of [main] of
    [scrape_holders.py]. *)
Definition holders_collected (api : list (request -> http)) (args : holders_args)
  : option (gmap string (gset tok)) :=
  let page_size := if 100 <? arg_page_size args then 100 else arg_page_size args in
  collect_holders api (arg_contract_address args) (arg_network args)
    (arg_start_token_id args) (arg_end_token_id args) page_size.

(** ** More predicates used in the statements *)

(** A record the server sent: an entry of the [nfts] list of one of its
    answers. *)
Definition sent_by (api : list (request -> http)) (nft : json) : Prop :=
  exists respond req result nfts,
    respond ∈ api /\ respond req = HttpJson result /\
    nfts_of result = Some nfts /\ nft ∈ nfts.

(** The value of a token id that is given as an integer or as a decimal
    string; [None] for a string that starts with [0x]. *)
Definition token_id_value (token_id : json) : option Z :=
  match token_id with
  | JInt z => Some z
  | JBool b => Some (Z.b2z b)
  | JStr raw => if PyStr.startswith "0x" raw then None else PyInt.int_of_string 10 raw
  | _ => None
  end.

(** Every token-id string of the holder map was written for a record that
    satisfies [R], under the address of the owner of that record. *)
Definition holders_from (R : json -> Prop) (network : string)
    (h : gmap string (gset tok)) : Prop :=
  forall a S s, h !! a = Some S -> TStr s ∈ S ->
    exists nft owner token_id,
      R nft /\ owner_address_of nft = Some (JStr owner) /\
      a = format_owner network owner /\
      token_id_of nft = Some token_id /\ token_id_hex token_id = Some (JStr s).

(** Every token id of the holder map is a string that [int(x, 16)] reads:
    the sort of line 162 has a key for it. *)
Definition sortable (h : gmap string (gset tok)) : Prop :=
  forall a S t, h !! a = Some S -> t ∈ S -> is_Some (hex_key t).

(** Nothing recorded in [h] is missing from [h']. *)
Definition holders_included (h h' : gmap string (gset tok)) : Prop :=
  forall a S, h !! a = Some S -> exists S', h' !! a = Some S' /\ S ⊆ S'.

(** A hexadecimal digit, of either case. *)
Definition is_hex_digit (c : ascii) : bool :=
  match PyInt.digit_value c with
  | Some d => d <? 16
  | None => false
  end.

(** The value of a string of hexadecimal digits read after [acc]. *)
Fixpoint hex_value (acc : Z) (digits : string) : Z :=
  match digits with
  | EmptyString => acc
  | String c digits' =>
      hex_value (acc * 16 + match PyInt.digit_value c with Some d => d | None => 0 end) digits'
  end.

(** ** More sample inputs *)

Module MoreSamples.

(** A last page with one record, token id 51 of owner [0x1001]. *)
Definition last_page : json :=
  Sample.single_page [JDict [("ownerAddress", JStr "0x1001"); ("tokenId", JInt 51)]].

Definition two_pages : list (request -> http) :=
  [fun _ => HttpJson Sample.page_of_50; fun _ => HttpJson last_page].

(** The holder map after the first of the two pages, and at the end. *)
Definition holders_after_page_1 : gmap string (gset tok) :=
  default ∅ (snd <$> after_pages (process_nfts "starknet")
                       (build_params "0xC0FFEE" 100 None None)
                       [fun _ => HttpJson Sample.page_of_50] JNull ∅).

Definition holders_at_end : gmap string (gset tok) :=
  default ∅ (page_loop (process_nfts "starknet")
               (build_params "0xC0FFEE" 100 None None) two_pages JNull ∅).

(** The holder map of two records of one owner, and its document. *)
Definition two_token_holders : gmap string (gset tok) :=
  fst (process_nfts "starknet" [Sample.record_ok; Sample.record_padded_hex] ∅).

(** A record whose token id starts with [0x] and is no hex number. *)
Definition record_bad_hex : json :=
  JDict [("ownerAddress", JStr "0xabc"); ("tokenId", JStr "0xZZ")].

(** A first page with that record and a next-page key; a page with that
    record alone. *)
Definition page_bad_hex : json :=
  JDict [("nfts", JList [record_bad_hex]); ("nextPageKey", JStr "page-2")].

Definition last_page_bad_hex : json := Sample.single_page [record_bad_hex].

Definition two_token_doc : snapshot_doc :=
  {| block_height := 0; chain_id := "0x534e5f4d41494e"; claim_contract := "0x1";
     contract_address := "0xc0ffee"; description := "d";
     entrypoint := "claim_from_forwarder"; name := "n"; network := "Starknet";
     snapshot := [("0xabc", ["0x1a"; "0x00FF"])] |}.

End MoreSamples.

(** * Properties *)

(** ** The model at work: the scenarios of the specification *)

Example hex_26 : PyInt.hex 26 = "0x1a".
Proof. reflexivity. Qed.

Example hex_0 : PyInt.hex 0 = "0x0".
Proof. reflexivity. Qed.

Example hex_negative : PyInt.hex (-5) = "-0x5".
Proof. reflexivity. Qed.

Example int_of_hex_string : PyInt.int_of_string 16 "0x1A" = Some 26.
Proof. reflexivity. Qed.

Example int_of_decimal_string : PyInt.int_of_string 10 " 26 " = Some 26.
Proof. reflexivity. Qed.

Example int_with_underscore : PyInt.int_of_string 10 "1_000" = Some 1000.
Proof. reflexivity. Qed.

Example int_of_letters : PyInt.int_of_string 10 "abc" = None.
Proof. reflexivity. Qed.

Example int_of_bad_hex : PyInt.int_of_string 16 "0xZZ" = None.
Proof. reflexivity. Qed.

Example int_of_bare_prefix : PyInt.int_of_string 16 "0x" = None.
Proof. reflexivity. Qed.

Example strip_spaces : PyStr.strip "  0xab  " = "0xab".
Proof. reflexivity. Qed.

Example starknet_padded_address : format_owner "starknet" "0x000abc" = "0xabc".
Proof. reflexivity. Qed.

Example starknet_zero_address : format_owner "starknet" "0x0000" = "0x0".
Proof. reflexivity. Qed.

Example ethereum_address_keeps_zeros : format_owner "ethereum" "0x00AB" = "0x00ab".
Proof. reflexivity. Qed.

Example token_id_hex_and_decimal :
  append_token_ids [JDict [("tokenId", JStr "0x1a")]; JDict [("tokenId", JInt 26)]] []
  = ([26; 26], Completed).
Proof. reflexivity. Qed.

Example token_zero_record_skipped :
  snd (process_nft "starknet" Sample.record_token_zero ∅) = Completed /\
  token_id_of Sample.record_token_zero = Some (JInt 0).
Proof. split; reflexivity. Qed.

Example two_pages_then_done :
  get_collection_nfts
    [fun _ => HttpJson Sample.page_of_50;
     fun _ => HttpJson (JDict [("result", JDict [("nfts", JList [])])])]
    "0xC0FFEE" None None 100 200 = Some (map Z.of_nat (seq 1 50)).
Proof. vm_compute. reflexivity. Qed.

Example float64_rounds : Np.float64 (2 ^ 53 + 1) = Np.float64 (2 ^ 53).
Proof. vm_compute. reflexivity. Qed.

Example gini_of_ten_fives : Lorenz.create_lorenz_curve (replicate 10 5) = 0.01%float.
Proof. vm_compute. reflexivity. Qed.

(** Three equal amounts: the float is not the rational 1/9. *)
Example gini_of_three_ones :
  Lorenz.create_lorenz_curve [1; 1; 1] = 0.11111111111111113%float.
Proof. vm_compute. reflexivity. Qed.

(** A total of 0 divides 0 by 0. *)
Example gini_of_zero_total : Lorenz.create_lorenz_curve [0; 0; 0] = nan.
Proof. vm_compute. reflexivity. Qed.

(** Sums that leave [int64] wrap around. *)
Example cumsum_wraps :
  Lorenz.cumsum [2 ^ 62; 2 ^ 62; 2 ^ 62] = [2 ^ 62; - 2 ^ 63; - 2 ^ 62].
Proof. vm_compute. reflexivity. Qed.

Example gini_of_wrapped_sums :
  Lorenz.create_lorenz_curve
    [3000000000000000000; 3000000000000000000; 4000000000000000000]
  = 1.2586107289429791%float.
Proof. vm_compute. reflexivity. Qed.

(** ** [hex] and [int(s, 16)] *)

Section hex_round_trip.

Import PyInt.

Lemma hex_char_cases (P : Z -> Prop) :
  P 0 -> P 1 -> P 2 -> P 3 -> P 4 -> P 5 -> P 6 -> P 7 -> P 8 -> P 9 ->
  P 10 -> P 11 -> P 12 -> P 13 -> P 14 -> P 15 ->
  forall d, 0 <= d < 16 -> P d.
Proof.
  intros.
  assert (d = 0 \/ d = 1 \/ d = 2 \/ d = 3 \/ d = 4 \/ d = 5 \/ d = 6 \/ d = 7 \/
          d = 8 \/ d = 9 \/ d = 10 \/ d = 11 \/ d = 12 \/ d = 13 \/ d = 14 \/ d = 15) by lia.
  repeat match goal with H : _ \/ _ |- _ => destruct H end; subst; assumption.
Qed.

Lemma digit_value_hex_char d : 0 <= d < 16 -> digit_value (hex_char d) = Some d.
Proof. revert d. apply hex_char_cases; reflexivity. Qed.

Lemma hex_char_not_underscore d : 0 <= d < 16 -> Ascii.eqb (hex_char d) "_" = false.
Proof. revert d. apply hex_char_cases; reflexivity. Qed.

Lemma scan_digits_hex_char d rest seen acc :
  0 <= d < 16 ->
  scan_digits 16 (String (hex_char d) rest) false seen acc
  = scan_digits 16 rest false true (acc * 16 + d).
Proof.
  intros Hd. cbn [scan_digits].
  rewrite hex_char_not_underscore, digit_value_hex_char by assumption.
  destruct (Z.ltb_spec d 16); [reflexivity | lia].
Qed.

Lemma scan_digits_hex_digits_aux fuel : forall n rest seen,
  0 <= n < 16 ^ Z.of_nat (S fuel) ->
  scan_digits 16 (hex_digits_aux (S fuel) n rest) false seen 0
  = scan_digits 16 rest false true n.
Proof.
  induction fuel as [|fuel IH]; intros n rest seen Hn.
  - change (16 ^ Z.of_nat 1) with 16 in Hn. cbn [hex_digits_aux].
    destruct (Z.ltb_spec n 16); [|lia].
    now rewrite scan_digits_hex_char.
  - cbn [hex_digits_aux]. fold (hex_digits_aux (S fuel)).
    destruct (Z.ltb_spec n 16).
    + rewrite scan_digits_hex_char by lia. reflexivity.
    + change (scan_digits 16
                (hex_digits_aux (S fuel) (n / 16) (String (hex_char (n mod 16)) rest))
                false seen 0
              = scan_digits 16 rest false true n).
      rewrite IH.
      * rewrite scan_digits_hex_char by (apply Z.mod_pos_bound; lia).
        f_equal. pose proof (Z.div_mod n 16). lia.
      * split; [apply Z.div_pos; lia|].
        apply Z.div_lt_upper_bound; [lia|].
        rewrite (Nat2Z.inj_succ (S fuel)), Z.pow_succ_r in Hn by lia. lia.
Qed.

Lemma hex_digits_fuel n : 0 <= n -> n < 16 ^ Z.of_nat (S (Z.to_nat (Z.log2 n))).
Proof.
  intros Hn. rewrite Nat2Z.inj_succ, Z2Nat.id by apply Z.log2_nonneg.
  destruct (Z.eq_dec n 0) as [->|Hne]; [reflexivity|].
  pose proof (Z.log2_spec n ltac:(lia)) as [_ Hlt].
  eapply Z.lt_le_trans; [exact Hlt|].
  pose proof (Z.log2_nonneg n).
  change 16 with (2 ^ 4). rewrite <- Z.pow_mul_r by lia.
  apply Z.pow_le_mono_r; lia.
Qed.

Lemma scan_digits_hex_digits n :
  0 <= n -> scan_digits 16 (hex_digits n) false false 0 = Some (n, "").
Proof.
  intros Hn. unfold hex_digits.
  rewrite scan_digits_hex_digits_aux by (split; [lia | now apply hex_digits_fuel]).
  reflexivity.
Qed.

Lemma hex_digits_aux_acc_head fuel : forall n k rest, 0 <= n -> 0 <= k < 16 ->
  exists k' tail, 0 <= k' < 16 /\
    hex_digits_aux fuel n (String (hex_char k) rest) = String (hex_char k') tail.
Proof.
  induction fuel as [|fuel IH]; intros n k rest Hn Hk.
  - exists k, rest. auto.
  - cbn [hex_digits_aux]. destruct (Z.ltb_spec n 16).
    + exists n, (String (hex_char k) rest). split; [lia | reflexivity].
    + apply IH; [apply Z.div_pos; lia | apply Z.mod_pos_bound; lia].
Qed.

Lemma hex_digits_head n : 0 <= n ->
  exists k tail, 0 <= k < 16 /\ hex_digits n = String (hex_char k) tail.
Proof.
  intros Hn. unfold hex_digits. cbn [hex_digits_aux].
  destruct (Z.ltb_spec n 16).
  - exists n, "". split; [lia | reflexivity].
  - apply hex_digits_aux_acc_head; [apply Z.div_pos; lia | apply Z.mod_pos_bound; lia].
Qed.

Lemma hex_nonneg v : 0 <= v -> hex v = String "0" (String "x" (hex_digits v)).
Proof. intros Hv. unfold hex. destruct (Z.ltb_spec v 0); [lia | reflexivity]. Qed.

Lemma int_of_string_hex v : 0 <= v -> int_of_string 16 (hex v) = Some v.
Proof.
  intros Hv. rewrite hex_nonneg by assumption.
  destruct (hex_digits_head v Hv) as (k & tail & Hk & Hd).
  unfold int_of_string.
  change (PyStr.lstrip (String "0" (String "x" (hex_digits v))))
    with (String "0" (String "x" (hex_digits v))).
  change (skip_sign (String "0" (String "x" (hex_digits v))))
    with (false, String "0" (String "x" (hex_digits v))).
  cbv iota beta.
  assert (Hskip : skip_prefix 16 (String "0" (String "x" (hex_digits v))) = hex_digits v).
  { rewrite Hd. unfold skip_prefix.
    change ((16 =? 16) && (Ascii.eqb "x" "x" || Ascii.eqb "x" "X")) with true. cbv iota.
    pose proof (hex_char_not_underscore k Hk) as Hus.
    destruct (hex_char k) as [[] [] [] [] [] [] [] []]; try reflexivity; discriminate Hus. }
  rewrite Hskip.
  assert (Hns : PyStr.startswith "_" (hex_digits v) = false).
  { rewrite Hd. cbn [PyStr.startswith]. rewrite Ascii.eqb_sym.
    now rewrite hex_char_not_underscore. }
  rewrite Hns, scan_digits_hex_digits by assumption. reflexivity.
Qed.

End hex_round_trip.

(** ** [hex] prints minimal lower-case digits *)

Section minimal_hex.

Import PyInt.

Lemma hex_char_lower d : 0 <= d < 16 -> is_lower_hex_digit (hex_char d) = true.
Proof. revert d. apply hex_char_cases; reflexivity. Qed.

Lemma hex_char_nonzero d : 0 < d < 16 -> Ascii.eqb (hex_char d) "0" = false.
Proof.
  intros Hd. assert (H : 0 <= d - 1 < 15) by lia.
  replace d with (d - 1 + 1) by lia. revert H. generalize (d - 1). clear.
  intros e He.
  assert (e = 0 \/ e = 1 \/ e = 2 \/ e = 3 \/ e = 4 \/ e = 5 \/ e = 6 \/ e = 7 \/
          e = 8 \/ e = 9 \/ e = 10 \/ e = 11 \/ e = 12 \/ e = 13 \/ e = 14) as H by lia.
  repeat match goal with H : _ \/ _ |- _ => destruct H end; subst; reflexivity.
Qed.

Lemma all_lower_hex_digits_aux fuel : forall n acc,
  0 <= n -> all_lower_hex acc = true -> all_lower_hex (hex_digits_aux fuel n acc) = true.
Proof.
  induction fuel as [|fuel IH]; intros n acc Hn Hacc; cbn [hex_digits_aux]; [exact Hacc|].
  destruct (Z.ltb_spec n 16).
  - cbn [all_lower_hex]. now rewrite hex_char_lower, Hacc by lia.
  - apply IH; [apply Z.div_pos; lia|].
    cbn [all_lower_hex]. rewrite hex_char_lower, Hacc; [reflexivity|].
    apply Z.mod_pos_bound; lia.
Qed.

Lemma hex_digits_aux_leading fuel : forall n acc,
  0 < n < 16 ^ Z.of_nat (S fuel) ->
  exists k tail, 0 < k < 16 /\ hex_digits_aux (S fuel) n acc = String (hex_char k) tail.
Proof.
  induction fuel as [|fuel IH]; intros n acc Hn.
  - change (16 ^ Z.of_nat 1) with 16 in Hn. cbn [hex_digits_aux].
    destruct (Z.ltb_spec n 16); [|lia]. now exists n, acc.
  - cbn [hex_digits_aux]. fold (hex_digits_aux (S fuel)).
    destruct (Z.ltb_spec n 16); [now exists n, acc|].
    apply IH. split.
    + apply Z.div_str_pos; lia.
    + apply Z.div_lt_upper_bound; [lia|].
      rewrite (Nat2Z.inj_succ (S fuel)), Z.pow_succ_r in Hn by lia. lia.
Qed.

Lemma minimal_hex_hex z : 0 <= z -> minimal_hex (hex z) = true.
Proof.
  intros Hz. rewrite hex_nonneg by assumption.
  destruct (Z.eq_dec z 0) as [->|Hne]; [reflexivity|].
  pose proof (all_lower_hex_digits_aux (S (Z.to_nat (Z.log2 z))) z "" Hz eq_refl) as Hall.
  fold (hex_digits z) in Hall.
  destruct (hex_digits_aux_leading (Z.to_nat (Z.log2 z)) z "") as (k & tail & Hk & Hd).
  { split; [lia | now apply hex_digits_fuel]. }
  fold (hex_digits z) in Hd. rewrite Hd in Hall |- *.
  cbn [minimal_hex]. rewrite Hall, hex_char_nonzero by assumption. reflexivity.
Qed.

End minimal_hex.

(** ** The formatting of owner addresses *)

Section canonical_address.

Import PyStr.

Lemma lower_char_idemp c : lower_char (lower_char c) = lower_char c.
Proof. destruct c as [[] [] [] [] [] [] [] []]; reflexivity. Qed.

Lemma lower_idemp s : lower (lower s) = lower s.
Proof. induction s as [|c s IH]; cbn [lower]; [reflexivity|]. now rewrite lower_char_idemp, IH. Qed.

Lemma startswith_0x_inv s :
  startswith "0x" s = true -> exists t, s = String "0" (String "x" t).
Proof.
  destruct s as [|a [|b t]]; cbn [startswith]; try discriminate.
  - destruct (Ascii.eqb "0" a); discriminate.
  - destruct (Ascii.eqb_spec "0" a) as [<-|]; [|discriminate].
    destruct (Ascii.eqb_spec "x" b) as [<-|]; [|discriminate].
    intros _. now exists t.
Qed.

(** After the prefix and lower-case steps the address is [0x] followed by a
    lower-case string. *)
Lemma lower_prefixed s :
  exists t, lower (if startswith "0x" s then s else "0x" ++ s) = String "0" (String "x" t)
            /\ lower t = t.
Proof.
  destruct (startswith "0x" s) eqn:Hs.
  - destruct (startswith_0x_inv s Hs) as [t ->].
    exists (lower t). split; [reflexivity | apply lower_idemp].
  - exists (lower s). split; [reflexivity | apply lower_idemp].
Qed.

Lemma lower_lstrip_char c t : lower t = t -> lower (lstrip_char c t) = lstrip_char c t.
Proof.
  induction t as [|a t IH]; intros Ht; cbn [lstrip_char]; [reflexivity|].
  destruct (Ascii.eqb a c); [|exact Ht].
  apply IH. cbn [lower] in Ht. now injection Ht.
Qed.

Lemma lstrip_char_idemp c t : lstrip_char c (lstrip_char c t) = lstrip_char c t.
Proof.
  induction t as [|a t IH]; cbn [lstrip_char]; [reflexivity|].
  destruct (Ascii.eqb a c) eqn:Hac; [exact IH|].
  cbn [lstrip_char]. now rewrite Hac.
Qed.

Lemma format_owner_shape network x :
  exists t, format_owner network x = String "0" (String "x" t) /\ lower t = t /\
    (String.eqb (lower network) "starknet" = true -> stripped t).
Proof.
  unfold format_owner.
  destruct (lower_prefixed x) as (t & Hx & Ht). rewrite Hx.
  destruct (String.eqb (lower network) "starknet").
  - change (slice_from 2 (String "0" (String "x" t))) with t.
    change ("0x" ++ lstrip_char "0" t) with (String "0" (String "x" (lstrip_char "0" t))).
    pose proof (lower_lstrip_char "0" t Ht) as Hlow.
    pose proof (lstrip_char_idemp "0" t) as Hidem.
    destruct (lstrip_char "0" t) as [|a u].
    + exists "0". repeat split. now left.
    + exists (String a u). repeat split; [exact Hlow|]. right. split; [discriminate | exact Hidem].
  - exists t. repeat split; [exact Ht | discriminate].
Qed.

Lemma format_owner_fixed network t :
  lower t = t ->
  (String.eqb (lower network) "starknet" = true -> stripped t) ->
  format_owner network (String "0" (String "x" t)) = String "0" (String "x" t).
Proof.
  intros Ht Hs. unfold format_owner.
  change (startswith "0x" (String "0" (String "x" t))) with true. cbv iota.
  change (lower (String "0" (String "x" t))) with (String "0" (String "x" (lower t))).
  rewrite Ht.
  destruct (String.eqb (lower network) "starknet"); [|reflexivity].
  change (slice_from 2 (String "0" (String "x" t))) with t.
  destruct (Hs eq_refl) as [-> | [Hne Hst]]; [reflexivity|].
  rewrite Hst. destruct t as [|a u]; [congruence | reflexivity].
Qed.

End canonical_address.

(** ** The order of strings *)

Section string_order.

Import PyStr.

Lemma N_of_ascii_inj a b : N_of_ascii a = N_of_ascii b -> a = b.
Proof. intros H. rewrite <- (ascii_N_embedding a), <- (ascii_N_embedding b). now rewrite H. Qed.

Lemma ltb_irrefl a : ltb a a = false.
Proof.
  induction a as [|x a IH]; cbn [ltb]; [reflexivity|].
  now rewrite N.ltb_irrefl, N.eqb_refl.
Qed.

Lemma ltb_trans a : forall b c, ltb a b = true -> ltb b c = true -> ltb a c = true.
Proof.
  induction a as [|x a IH]; intros [|y b] [|z c]; cbn [ltb]; try congruence.
  destruct (N.ltb_spec (N_of_ascii x) (N_of_ascii y)),
           (N.eqb_spec (N_of_ascii x) (N_of_ascii y)),
           (N.ltb_spec (N_of_ascii y) (N_of_ascii z)),
           (N.eqb_spec (N_of_ascii y) (N_of_ascii z)),
           (N.ltb_spec (N_of_ascii x) (N_of_ascii z)),
           (N.eqb_spec (N_of_ascii x) (N_of_ascii z));
    try congruence; try lia.
  apply IH.
Qed.

Lemma ltb_trichotomy a : forall b, ltb a b = false -> ltb b a = false -> a = b.
Proof.
  induction a as [|x a IH]; intros [|y b]; cbn [ltb]; try congruence.
  destruct (N.ltb_spec (N_of_ascii x) (N_of_ascii y)),
           (N.eqb_spec (N_of_ascii x) (N_of_ascii y)),
           (N.ltb_spec (N_of_ascii y) (N_of_ascii x)),
           (N.eqb_spec (N_of_ascii y) (N_of_ascii x));
    try congruence; try lia.
  intros Hab Hba. f_equal; [now apply N_of_ascii_inj | now apply IH].
Qed.

Lemma ltb_asym a b : ltb a b = true -> ltb b a = false.
Proof.
  intros Hab. destruct (ltb b a) eqn:Hba; [|reflexivity].
  pose proof (ltb_trans _ _ _ Hab Hba) as H. now rewrite ltb_irrefl in H.
Qed.

Lemma leb_total a b : leb a b = true \/ leb b a = true.
Proof.
  unfold leb. destruct (ltb b a) eqn:Hba; [|now left].
  right. now rewrite (ltb_asym _ _ Hba).
Qed.

Lemma leb_trans a b c : leb a b = true -> leb b c = true -> leb a c = true.
Proof.
  unfold leb. intros Hab Hbc.
  apply negb_true_iff in Hab, Hbc. apply negb_true_iff.
  destruct (ltb c a) eqn:Hca; [|reflexivity].
  destruct (ltb a b) eqn:Hab'.
  - pose proof (ltb_trans _ _ _ Hca Hab'). congruence.
  - assert (a = b) by now apply ltb_trichotomy. subst. congruence.
Qed.


End string_order.

#[global] Instance addr_le_total {A} : Total (@addr_le A).
Proof.
  intros x y. unfold addr_le.
  destruct (leb_total (fst x) (fst y)) as [-> | ->]; [now left | now right].
Qed.

#[global] Instance addr_le_trans {A} : Transitive (@addr_le A).
Proof.
  intros x y z. unfold addr_le. intros Hxy%Is_true_true Hyz%Is_true_true.
  apply Is_true_true. now apply (leb_trans _ (fst y)).
Qed.

#[global] Instance key_le_total : Total key_le.
Proof. intros x y. unfold key_le. lia. Qed.

#[global] Instance key_le_trans : Transitive key_le.
Proof. intros x y z. unfold key_le. lia. Qed.

(** ** The snapshot data *)

Section snapshot_data.

Lemma map_fmap {A B} (f : A -> B) (l : list A) : map f l = f <$> l.
Proof. reflexivity. Qed.



Lemma snapshot_data_of_spec h data :
  snapshot_data_of h = Some data ->
  Forall2 (fun (item : string * gset tok) (e : string * list string) =>
             fst e = fst item /\ sort_token_ids (snd item) = Some (snd e))
          (merge_sort addr_le (map_to_list h)) data.
Proof.
  intros H. apply mapM_Some_1 in H.
  eapply Forall2_impl; [exact H|].
  intros item e He. cbn beta in He.
  destruct (sort_token_ids (snd item)) as [ids|]; [|discriminate].
  injection He as <-. auto.
Qed.

Lemma snapshot_data_addresses h data :
  snapshot_data_of h = Some data ->
  map fst data = map fst (merge_sort addr_le (map_to_list h)).
Proof.
  intros H%snapshot_data_of_spec.
  induction H as [|item e items data [He _] _ IH]; [reflexivity|].
  cbn [map]. now rewrite He, IH.
Qed.

Lemma sort_token_ids_spec S ids :
  sort_token_ids S = Some ids ->
  exists keyed, Forall2 (fun t k => hex_key t = Some k) (elements S) keyed /\
                ids = map snd (merge_sort key_le keyed).
Proof.
  unfold sort_token_ids. intros H.
  destruct (mapM hex_key (elements S)) as [keyed|] eqn:Hk; [|discriminate].
  injection H as <-. exists keyed. split; [now apply mapM_Some_1 | reflexivity].
Qed.

Lemma hex_key_Some t z s :
  hex_key t = Some (z, s) -> t = TStr s /\ PyInt.int_of_string 16 s = Some z.
Proof.
  destruct t as [|q|s']; cbn [hex_key]; try discriminate.
  destruct (PyInt.int_of_string 16 s') as [z'|] eqn:Hz; [|discriminate].
  cbn [mbind option_bind]. intros [= <- <-]. auto.
Qed.



Lemma sort_token_ids_members S ids s :
  sort_token_ids S = Some ids -> s ∈ ids -> TStr s ∈ S.
Proof.
  intros (keyed & Hkeyed & ->)%sort_token_ids_spec Hs.
  rewrite map_fmap in Hs. apply list_elem_of_fmap in Hs as ([z s'] & -> & Hk).
  rewrite merge_sort_Permutation in Hk.
  apply list_elem_of_lookup in Hk as [i Hi].
  destruct (Forall2_lookup_r _ _ _ _ _ Hkeyed Hi) as (t & Ht & Hkey).
  apply hex_key_Some in Hkey as [-> _].
  apply elem_of_elements, list_elem_of_lookup. now exists i.
Qed.

Lemma snapshot_data_members h data a ids s :
  snapshot_data_of h = Some data -> (a, ids) ∈ data -> s ∈ ids ->
  exists S, h !! a = Some S /\ TStr s ∈ S.
Proof.
  intros Hdata%snapshot_data_of_spec He Hs.
  apply list_elem_of_lookup in He as [i Hi].
  destruct (Forall2_lookup_r _ _ _ _ _ Hdata Hi) as ([a' S] & Hitem & Ha & HS).
  cbn [fst snd] in Ha, HS. subst a'.
  exists S. split; [|now apply (sort_token_ids_members S ids)].
  apply elem_of_map_to_list. rewrite <- (merge_sort_Permutation addr_le).
  apply list_elem_of_lookup. now exists i.
Qed.


End snapshot_data.

(** ** The aggregation of records *)

Section aggregation.

Lemma holders_add_comm o1 e1 o2 e2 (h : gmap string (gset tok)) :
  holders_add o1 e1 (holders_add o2 e2 h) = holders_add o2 e2 (holders_add o1 e1 h).
Proof.
  unfold holders_add. destruct (decide (o1 = o2)) as [->|Hne].
  - rewrite !lookup_insert_eq, !insert_insert_eq. simpl. f_equal.
    rewrite <- !(assoc_L (∪)). f_equal. apply (comm_L (∪)).
  - rewrite !lookup_insert_ne by congruence. now apply insert_insert_ne.
Qed.

(** A record that is processed to its end is skipped or adds one token id,
    whatever the holder map. *)
Lemma process_nft_completed network nft h h' :
  process_nft network nft h = (h', Completed) ->
  (forall g, process_nft network nft g = (g, Completed)) \/
  (exists o e, forall g, process_nft network nft g = (holders_add o e g, Completed)).
Proof.
  unfold process_nft.
  destruct (owner_address_of nft) as [owner|]; [|discriminate].
  destruct (token_id_of nft) as [token_id|]; [|discriminate].
  destruct (Py.truthy owner && Py.truthy token_id); [|now left].
  destruct owner as [| | | |o| |]; try discriminate.
  destruct (token_id_hex token_id) as [t|]; [|discriminate].
  destruct (hashable t) as [e|]; [|discriminate].
  intros _. right. now exists (format_owner network o), e.
Qed.

Lemma process_nfts_cons network nft nfts h :
  process_nfts network (nft :: nfts) h =
  match process_nft network nft h with
  | (h', Completed) => process_nfts network nfts h'
  | (h', Raised) => (h', Raised)
  end.
Proof. reflexivity. Qed.

Lemma process_nfts_cons_completed network nft nfts h h1 :
  process_nfts network (nft :: nfts) h = (h1, Completed) ->
  exists h', process_nft network nft h = (h', Completed) /\
             process_nfts network nfts h' = (h1, Completed).
Proof.
  rewrite process_nfts_cons.
  destruct (process_nft network nft h) as [h' []]; [|discriminate].
  intros H. now exists h'.
Qed.

End aggregation.

(** ** Where stored token ids come from *)

Section provenance.







End provenance.

(** ** The page loop *)

Section page_loop.

Context {S : Type} (body : list json -> S -> S * status) (params : json -> request).



Lemma page_step_failed response acc :
  fetch_failed response = true -> page_step body response acc = (acc, Break).
Proof.
  destruct response as [|result]; [reflexivity|].
  destruct result as [| | | | | |d]; try discriminate.
  cbn [fetch_failed page_step Py.contains]. now intros ->.
Qed.

(** A failed fetch ends the loop with the accumulator of the pages before. *)
Lemma page_loop_failed earlier : forall respond rest page_key acc page_key' acc',
  after_pages body params earlier page_key acc = Some (page_key', acc') ->
  fetch_failed (respond (params page_key')) = true ->
  page_loop body params (earlier ++ respond :: rest) page_key acc = Some acc'.
Proof.
  induction earlier as [|r earlier IH]; intros respond rest page_key acc page_key' acc' Hafter Hfail.
  - injection Hafter as <- <-. cbn [app page_loop]. now rewrite page_step_failed.
  - cbn [after_pages] in Hafter. cbn [app page_loop].
    destruct (page_step body (r (params page_key)) acc) as [acc1 [key|]]; [|discriminate].
    now apply (IH _ _ _ _ page_key').
Qed.

End page_loop.

(** ** The Lorenz curve *)

Section lorenz.

Import Lorenz.

Lemma sort_values_single a : sort_values [a] = [a].
Proof. reflexivity. Qed.

(** One sample has no trapezoid. *)
Lemma trapz_single y x : Np.trapz [y] [x] = 0%float.
Proof. reflexivity. Qed.

Lemma float_value_bounds f (q lo hi : Q) :
  float_value f = Some q -> (Qle_bool lo q && Qle_bool q hi && negb (Qeq_bool q 0)) = true ->
  (lo <= q)%Q /\ (q <= hi)%Q /\ ~ (q == 0)%Q.
Proof.
  intros _ H. apply andb_prop in H as [H Hne]. apply andb_prop in H as [Hlo Hhi].
  split; [now apply Qle_bool_iff|]. split; [now apply Qle_bool_iff|].
  apply Qeq_bool_neq. now apply negb_true_iff in Hne.
Qed.

(** The Gini coefficient of every column of up to 100 equal amounts from 1
    to 10, computed. *)
Lemma equal_amounts_computed :
  forallb (fun n : nat =>
    forallb (fun a : Z =>
      match float_value (create_lorenz_curve (replicate n a)) with
      | Some gini =>
          Qle_bool (1 / (inject_Z (Z.of_nat n) * inject_Z (Z.of_nat n)) - (1 # 10 ^ 12)) gini
          && Qle_bool gini (1 / (inject_Z (Z.of_nat n) * inject_Z (Z.of_nat n)) + (1 # 10 ^ 12))
          && negb (Qeq_bool gini 0)
      | None => false
      end) (map Z.of_nat (seq 1 10))) (seq 1 100) = true.
Proof. vm_compute. reflexivity. Qed.

End lorenz.

(** ** The claims *)

(** C7.  For every non-negative integer v, printing v with [hex] and
    reading the string back gives v: [int(hex(v), 16) = v], and the token-id
    reader of [get_collection_nfts] appends v for a record whose token id is
    [hex(v)]. *)
Theorem token_id_round_trip (v : Z) (Hv : 0 <= v) :
  PyInt.int_of_string 16 (PyInt.hex v) = Some v /\
  forall token_ids,
    append_token_id (JDict [("tokenId", JStr (PyInt.hex v))]) token_ids
    = ((token_ids ++ [v])%list, Completed).
Proof.
  split; [now apply int_of_string_hex|].
  intros token_ids. unfold append_token_id.
  change (token_id_of (JDict [("tokenId", JStr (PyInt.hex v))]))
    with (Some (JStr (PyInt.hex v))).
  cbv iota. rewrite int_of_string_hex by assumption.
  rewrite hex_nonneg by assumption. reflexivity.
Qed.

Lemma token_id_round_trip_witness :
  PyInt.int_of_string 16 (PyInt.hex 26) = Some 26 /\
  forall token_ids,
    append_token_id (JDict [("tokenId", JStr (PyInt.hex 26))]) token_ids
    = ((token_ids ++ [26])%list, Completed).
Proof. apply (token_id_round_trip 26). lia. Defined.

(** C6.  Formatting an owner address is idempotent, for every raw address
    string and every network: formatting the formatted address changes
    nothing. *)
Theorem canonicalize_idempotent (network x : string) :
  format_owner network (format_owner network x) = format_owner network x.
Proof.
  destruct (format_owner_shape network x) as (t & -> & Ht & Hs).
  now apply format_owner_fixed.
Qed.

(** C2.  A record that carries an owner address and the token id 0 is
    skipped by the holder aggregation, without an error: line 111 tests the
    truth value of the token id.  The token-id scraper, which tests
    [is not None], keeps the token id 0 of the same record; and the holder
    aggregation does insert the record for every other integer token id. *)
Theorem token_id_zero_skipped (network o : string) (h : gmap string (gset tok))
    (token_ids : list Z) :
  let nft := fun z => JDict [("ownerAddress", JStr o); ("tokenId", JInt z)] in
  process_nft network (nft 0) h = (h, Completed) /\
  append_token_id (nft 0) token_ids = ((token_ids ++ [0])%list, Completed) /\
  (forall z, z <> 0 -> o <> "" ->
     process_nft network (nft z) h
     = (holders_add (format_owner network o) (TStr (PyInt.hex z)) h, Completed)).
Proof.
  cbv zeta beta. split; [|split].
  - unfold process_nft.
    change (owner_address_of _) with (Some (JStr o)).
    change (token_id_of _) with (Some (JInt 0)).
    cbv iota. now rewrite andb_false_r.
  - reflexivity.
  - intros z Hz Ho. unfold process_nft.
    change (owner_address_of _) with (Some (JStr o)).
    change (token_id_of _) with (Some (JInt z)).
    cbv iota. cbn [Py.truthy].
    destruct (String.eqb_spec o ""); [congruence|].
    destruct (Z.eqb_spec z 0); [congruence|]. reflexivity.
Qed.

(** C8, as amended.  When the aggregation of a sequence of records runs to
    its end without an exception, the aggregation of every permutation of
    the sequence does so too and gives the same holder map. *)
Theorem aggregation_order_insensitive (network : string) (l l' : list json)
    (h h1 : gmap string (gset tok)) :
  Permutation l l' ->
  process_nfts network l h = (h1, Completed) ->
  process_nfts network l' h = (h1, Completed).
Proof.
  intros Hperm. revert h h1.
  induction Hperm as [|x l l' _ IH|x y l|l l' l'' _ IH1 _ IH2]; intros h h1 Hl.
  - exact Hl.
  - apply process_nfts_cons_completed in Hl as (h' & Hx & Hl).
    rewrite process_nfts_cons, Hx. now apply IH.
  - apply process_nfts_cons_completed in Hl as (hy & Hy & Hl).
    apply process_nfts_cons_completed in Hl as (hx & Hx & Hl).
    destruct (process_nft_completed _ _ _ _ Hy) as [Sy | (oy & ey & Ay)],
             (process_nft_completed _ _ _ _ Hx) as [Sx | (ox & ex & Ax)].
    + rewrite process_nfts_cons, Sx, process_nfts_cons, Sy.
      rewrite Sy in Hy. rewrite Sx in Hx. congruence.
    + rewrite process_nfts_cons, Ax, process_nfts_cons, Sy.
      rewrite Sy in Hy. rewrite Ax in Hx. congruence.
    + rewrite process_nfts_cons, Sx, process_nfts_cons, Ay.
      rewrite Ay in Hy. rewrite Sx in Hx. congruence.
    + rewrite process_nfts_cons, Ax, process_nfts_cons, Ay.
      rewrite Ay in Hy. rewrite Ax in Hx.
      rewrite holders_add_comm. congruence.
  - now apply IH2, IH1.
Qed.

Lemma aggregation_order_insensitive_witness :
  process_nfts "starknet" [Sample.record_padded_hex; Sample.record_ok] ∅
  = (fst (process_nfts "starknet" [Sample.record_ok; Sample.record_padded_hex] ∅), Completed).
Proof.
  apply (aggregation_order_insensitive "starknet"
           [Sample.record_ok; Sample.record_padded_hex]).
  - apply perm_swap.
  - assert (Hs : snd (process_nfts "starknet" [Sample.record_ok; Sample.record_padded_hex] ∅)
                 = Completed) by (vm_compute; reflexivity).
    rewrite <- Hs. apply surjective_pairing.
Defined.

(** C8, the claim as stated fails: a record whose token id is no number
    raises, the loop over the page ends there, and the records after it are
    not aggregated; before it they are. *)
Lemma aggregation_order_sensitive :
  Permutation [Sample.record_ok; Sample.record_not_a_number]
              [Sample.record_not_a_number; Sample.record_ok] /\
  fst (process_nfts "starknet" [Sample.record_ok; Sample.record_not_a_number] ∅)
  <> fst (process_nfts "starknet" [Sample.record_not_a_number; Sample.record_ok] ∅).
Proof.
  split; [apply perm_swap|].
  intros H. apply (f_equal (fun m => bool_decide (is_Some (m !! "0xabc")))) in H.
  vm_compute in H. discriminate H.
Qed.

Section documents.


Lemma og_entries_tokens addrs : forall idx a ids,
  0 <= idx -> (a, ids) ∈ og_entries idx addrs ->
  exists i, 0 < i /\ ids = [PyInt.hex i].
Proof.
  induction addrs as [|addr addrs IH]; intros idx a ids Hidx He; cbn [og_entries] in He.
  - now apply elem_of_nil in He.
  - apply elem_of_cons in He as [[= -> ->] | He].
    + exists (idx + 1). split; [lia | reflexivity].
    + apply (IH (idx + 1) a ids); [lia | exact He].
Qed.

Lemma og_document_tokens rows a ids :
  (a, ids) ∈ snapshot (process_og_snapshot rows) ->
  exists i, 0 < i /\ ids = [PyInt.hex i].
Proof. apply og_entries_tokens. lia. Qed.

End documents.




(** C4, the claim as stated fails: the token id ["0x00FF"] of a record is
    written to the document as it came, upper-case and zero-padded. *)
Lemma padded_hex_token_id_kept :
  let doc := {| block_height := 0; chain_id := "0x534e5f4d41494e"; claim_contract := "0x1";
                contract_address := "0xc0ffee"; description := "d";
                entrypoint := "claim_from_forwarder"; name := "n"; network := "Starknet";
                snapshot := [("0xabc", ["0x00FF"])] |} in
  get_collection_holders [fun _ => HttpJson (Sample.single_page [Sample.record_padded_hex])]
    "0xC0FFEE" "starknet" "n" "d" None None 100 200 None = Returned doc /\
  ~ token_ids_minimal doc.
Proof.
  cbv zeta. split; [vm_compute; reflexivity|].
  intros H. specialize (H "0xabc" ["0x00FF"] "0x00FF").
  cbn [snapshot] in H.
  specialize (H (list_elem_of_here _ _) (list_elem_of_here _ _)).
  discriminate H.
Qed.

Section gini_claims.

Import Lorenz.

(** C1.  For n holders that all have the same positive amount the Gini
    coefficient that [create_lorenz_curve] returns is the float next to
    1/n^2, and not 0: the first sample of the Lorenz curve is
    (100/n, 100/n), the origin is not part of the curve, and the area up to
    the first sample is missing.  Computed for every column of 1 to 100
    holders with an amount from 1 to 10: the float returned is finite, it
    is within 10^-12 of 1/n^2, and it is not 0. *)
Theorem gini_of_equal_amounts (a : Z) (n : nat) :
  (1 <= n <= 100)%nat -> (1 <= a <= 10)%Z ->
  exists gini : Q,
    float_value (create_lorenz_curve (replicate n a)) = Some gini /\
    (1 / (inject_Z (Z.of_nat n) * inject_Z (Z.of_nat n)) - (1 # 10 ^ 12) <= gini)%Q /\
    (gini <= 1 / (inject_Z (Z.of_nat n) * inject_Z (Z.of_nat n)) + (1 # 10 ^ 12))%Q /\
    ~ (gini == 0)%Q.
Proof.
  intros Hn Ha.
  pose proof equal_amounts_computed as H.
  rewrite forallb_forall in H. specialize (H n ltac:(apply in_seq; lia)).
  rewrite forallb_forall in H. specialize (H a).
  assert (Hin : In a (map Z.of_nat (seq 1 10))).
  { apply in_map_iff. exists (Z.to_nat a). split; [lia | apply in_seq; lia]. }
  specialize (H Hin).
  destruct (float_value (create_lorenz_curve (replicate n a))) as [gini|] eqn:Hg;
    [|discriminate H].
  exists gini. split; [reflexivity|].
  exact (float_value_bounds _ gini _ _ Hg H).
Qed.

(** The example of the specification, 10 holders with amount 5 each: the
    value returned is the float 0.01. *)
Lemma gini_of_equal_amounts_witness :
  (exists gini : Q,
     float_value (create_lorenz_curve (replicate 10 5)) = Some gini /\
     (1 / (inject_Z (Z.of_nat 10) * inject_Z (Z.of_nat 10)) - (1 # 10 ^ 12) <= gini)%Q /\
     (gini <= 1 / (inject_Z (Z.of_nat 10) * inject_Z (Z.of_nat 10)) + (1 # 10 ^ 12))%Q /\
     ~ (gini == 0)%Q) /\
  create_lorenz_curve (replicate 10 5) = 0.01%float.
Proof.
  split; [apply gini_of_equal_amounts; lia | vm_compute; reflexivity].
Defined.

(** C10.  For one holder with a positive amount the trapezoidal rule runs
    over a single sample, the area under the Lorenz curve is 0, and the
    Gini coefficient that [create_lorenz_curve] returns
    is exactly 1. *)
Theorem gini_of_single_holder (a : Z) :
  (0 < a)%Z ->
  Np.trapz (cumulative_tokens_pct (sort_values [a]) a) (cumulative_holders_pct 1) = 0%float /\
  create_lorenz_curve [a] = 1%float.
Proof.
  intros _. split; [reflexivity|].
  unfold create_lorenz_curve. rewrite sort_values_single.
  cbv zeta. change (length [a]) with 1%nat.
  unfold cumulative_tokens_pct, cumulative_holders_pct, cumsum.
  cbn [cumsum_from seq map]. rewrite trapz_single.
  unfold area_under_equality. reflexivity.
Qed.

Lemma gini_of_single_holder_witness :
  Np.trapz (cumulative_tokens_pct (sort_values [7%Z]) 7) (cumulative_holders_pct 1) = 0%float /\
  create_lorenz_curve [7%Z] = 1%float.
Proof. apply gini_of_single_holder. lia. Defined.

End gini_claims.

(** * More properties of the scripts *)

(** ** The page loop, one answer at a time *)

Section page_step_cases.

Context {S : Type} (body : list json -> S -> S * status).

(** [page_step] in terms of the records and the next page key of the answer. *)
Lemma page_step_json result acc :
  page_step body (HttpJson result) acc =
  match Py.contains "error" result with
  | Some false =>
      match nfts_of result with
      | Some nfts =>
          match body nfts acc with
          | (acc', Raised) => (acc', Break)
          | (acc', Completed) =>
              match next_page_key_of result with
              | Some next_page_key =>
                  if negb (Py.truthy next_page_key) || (length nfts =? 0)%nat
                  then (acc', Break)
                  else (acc', Continue next_page_key)
              | None => (acc', Break)
              end
          end
      | None => (acc, Break)
      end
  | _ => (acc, Break)
  end.
Proof.
  unfold page_step, nfts_of, next_page_key_of.
  destruct (Py.contains "error" result) as [[]|]; try reflexivity.
  destruct (b ← Py.contains "result" result;
            if b : bool then Py.get result "result" (JDict []) else Some result)
    as [data|]; [|reflexivity].
  cbn [mbind option_bind].
  destruct (Py.get data "nfts" (JList [])) as [v|]; [|reflexivity].
  cbn [mbind option_bind]. reflexivity.
Qed.

Lemma page_step_fst response acc :
  exists nfts_run, fst (page_step body response acc) = nfts_run /\
    (nfts_run = acc \/ exists nfts, nfts_run = fst (body nfts acc)).
Proof.
  eexists. split; [reflexivity|].
  destruct response as [|result]; [now left|].
  rewrite page_step_json.
  destruct (Py.contains "error" result) as [[]|]; try now left.
  destruct (nfts_of result) as [nfts|]; [|now left].
  right. exists nfts.
  destruct (body nfts acc) as [acc' []]; [|reflexivity].
  destruct (next_page_key_of result) as [k|]; [|reflexivity].
  now destruct (_ || _).
Qed.

(** An iteration goes on to the next page only after a full, non-empty page
    that names a next page key. *)
Lemma page_step_continue response acc acc' k :
  page_step body response acc = (acc', Continue k) ->
  exists result nfts, response = HttpJson result /\
    Py.contains "error" result = Some false /\
    nfts_of result = Some nfts /\ nfts <> [] /\
    body nfts acc = (acc', Completed) /\
    next_page_key_of result = Some k /\ Py.truthy k = true.
Proof.
  destruct response as [|result]; [discriminate|].
  rewrite page_step_json.
  destruct (Py.contains "error" result) as [[]|] eqn:He; try discriminate.
  destruct (nfts_of result) as [nfts|] eqn:Hn; [|discriminate].
  destruct (body nfts acc) as [acc1 []] eqn:Hb; [|discriminate].
  destruct (next_page_key_of result) as [k1|] eqn:Hk; [|discriminate].
  destruct (Py.truthy k1) eqn:Ht; cbn [negb orb]; [|discriminate].
  destruct nfts as [|nft nfts]; cbn [length Nat.eqb]; [discriminate|].
  intros [= <- <-]. exists result, (nft :: nfts). repeat split; auto; discriminate.
Qed.

End page_step_cases.

Section page_loop_more.

Context {S : Type} (body : list json -> S -> S * status) (params : json -> request).

(** The loop over a script that starts with pages that let it go on. *)
Lemma page_loop_app earlier : forall rest page_key acc page_key' acc',
  after_pages body params earlier page_key acc = Some (page_key', acc') ->
  page_loop body params (earlier ++ rest) page_key acc
  = page_loop body params rest page_key' acc'.
Proof.
  induction earlier as [|r earlier IH]; intros rest page_key acc page_key' acc' Hafter.
  - now injection Hafter as <- <-.
  - cbn [after_pages] in Hafter. cbn [app page_loop].
    destruct (page_step body (r (params page_key)) acc) as [acc1 [key|]]; [|discriminate].
    now apply IH.
Qed.

(** A relation the body keeps between the accumulator before and after is
    kept by the loop. *)
Lemma page_loop_grows (R : S -> S -> Prop) api :
  (forall a, R a a) -> (forall a b c, R a b -> R b c -> R a c) ->
  (forall nfts a, R a (fst (body nfts a))) ->
  forall page_key acc acc',
  page_loop body params api page_key acc = Some acc' -> R acc acc'.
Proof.
  intros Hrefl Htrans Hbody.
  induction api as [|respond api IH]; intros page_key acc acc'; [discriminate|].
  cbn [page_loop].
  destruct (page_step_fst body (respond (params page_key)) acc) as (a1 & Ha1 & Hcase).
  assert (Hstep : R acc a1).
  { destruct Hcase as [-> | [nfts ->]]; [apply Hrefl | apply Hbody]. }
  destruct (page_step body (respond (params page_key)) acc) as [acc1 [key|]];
    cbn [fst] in Ha1; subst a1.
  - intros H. eapply Htrans; [exact Hstep | now apply (IH key)].
  - now intros [= <-].
Qed.

Lemma after_pages_grows (R : S -> S -> Prop) api :
  (forall a, R a a) -> (forall a b c, R a b -> R b c -> R a c) ->
  (forall nfts a, R a (fst (body nfts a))) ->
  forall page_key acc page_key' acc',
  after_pages body params api page_key acc = Some (page_key', acc') -> R acc acc'.
Proof.
  intros Hrefl Htrans Hbody.
  induction api as [|respond api IH]; intros page_key acc page_key' acc'.
  - intros [= <- <-]. apply Hrefl.
  - cbn [after_pages].
    destruct (page_step_fst body (respond (params page_key)) acc) as (a1 & Ha1 & Hcase).
    assert (Hstep : R acc a1).
    { destruct Hcase as [-> | [nfts ->]]; [apply Hrefl | apply Hbody]. }
    destruct (page_step body (respond (params page_key)) acc) as [acc1 [key|]];
      cbn [fst] in Ha1; subst a1; [|discriminate].
    intros H. eapply Htrans; [exact Hstep | exact (IH key _ page_key' _ H)].
Qed.

End page_loop_more.

(** X1.  The loop ends with the first answer whose page is the
    last one: the list of records is empty, or no next page key comes with
    it, or a record raises.  What that page added is kept, the records
    before the one that raised included, and no later answer is asked for. *)
Theorem last_page_is_kept {S : Type} (body : list json -> S -> S * status)
    (params : json -> request) (respond : request -> http)
    (rest : list (request -> http)) (page_key result : json) (nfts : list json)
    (acc acc' : S) (st : status) :
  respond (params page_key) = HttpJson result ->
  Py.contains "error" result = Some false ->
  nfts_of result = Some nfts ->
  body nfts acc = (acc', st) ->
  st = Raised \/ nfts = [] \/
    (exists k, next_page_key_of result = Some k /\ Py.truthy k = false) ->
  page_loop body params (respond :: rest) page_key acc = Some acc'.
Proof.
  intros Hresp Herr Hnfts Hbody Hlast. cbn [page_loop].
  rewrite Hresp, page_step_json, Herr, Hnfts, Hbody.
  destruct st; [|reflexivity].
  destruct (next_page_key_of result) as [k|] eqn:Hk; [|reflexivity].
  destruct Hlast as [Hst | [-> | (k' & [= <-] & Hfalse)]].
  - discriminate.
  - cbn [length Nat.eqb]. now rewrite orb_true_r.
  - now rewrite Hfalse.
Qed.

Lemma last_page_is_kept_witness :
  page_loop append_token_ids (build_params "0xC0FFEE" 100 None None)
    [fun _ => HttpJson (JDict [("nfts", JList [JDict [("tokenId", JInt 7)];
                                              JDict [("tokenId", JStr "abc")];
                                              JDict [("tokenId", JInt 9)]]);
                               ("nextPageKey", JStr "k")]);
     fun _ => HttpError]
    JNull [3] = Some [3; 7].
Proof.
  eapply (last_page_is_kept append_token_ids _ _ _ JNull _ _ [3] [3; 7] Raised).
  - reflexivity.
  - reflexivity.
  - reflexivity.
  - reflexivity.
  - now left.
Defined.

(** X2.  An answer wrapped as [{result: {...}}] and the same
    answer at the top level are processed alike. *)
Theorem wrapped_answer_same_as_unwrapped {S : Type}
    (body : list json -> S -> S * status) (d dd : list (string * json)) (acc : S) :
  Py.dict_lookup d "error" = None ->
  Py.dict_lookup d "result" = Some (JDict dd) ->
  Py.dict_lookup dd "error" = None ->
  Py.dict_lookup dd "result" = None ->
  page_step body (HttpJson (JDict d)) acc = page_step body (HttpJson (JDict dd)) acc.
Proof.
  intros Hde Hdr Hdde Hddr. unfold page_step.
  cbn [Py.contains Py.get]. rewrite Hde, Hdr, Hdde, Hddr. reflexivity.
Qed.

Lemma wrapped_answer_same_as_unwrapped_witness :
  page_step append_token_ids
    (HttpJson (JDict [("result", JDict [("nfts", JList [JDict [("id", JStr "0x1a")]])])])) []
  = page_step append_token_ids
      (HttpJson (JDict [("nfts", JList [JDict [("id", JStr "0x1a")]])])) [].
Proof.
  apply wrapped_answer_same_as_unwrapped; reflexivity.
Defined.

(** ** The requests of a run *)

Section requests.

Context {S : Type} (body : list json -> S -> S * status).
Context (contract_address : string) (page_size : Z)
        (start_token_id end_token_id : option string).

(** Every request carries the arguments of the call. *)
Lemma requests_sent_fields api : forall page_key acc r,
  r ∈ requests_sent body
        (build_params contract_address page_size start_token_id end_token_id)
        api page_key acc ->
  contractAddress r = contract_address /\ pageSize r = page_size /\
  startTokenId r = if_set start_token_id /\ endTokenId r = if_set end_token_id.
Proof.
  induction api as [|respond api IH]; intros page_key acc r; cbn [requests_sent].
  - intros H. now apply elem_of_nil in H.
  - intros [-> | Hin]%elem_of_cons; [now repeat split|].
    destruct (page_step body (respond _) acc) as [acc1 [key|]].
    + exact (IH key acc1 r Hin).
    + now apply elem_of_nil in Hin.
Qed.

(** The first request is made with the page key the loop starts with; every
    later one carries the page key of the answer to the request before it. *)
Lemma requests_sent_chain api : forall page_key acc i r r',
  requests_sent body
    (build_params contract_address page_size start_token_id end_token_id)
    api page_key acc !! i = Some r ->
  requests_sent body
    (build_params contract_address page_size start_token_id end_token_id)
    api page_key acc !! (i + 1)%nat = Some r' ->
  exists respond result k,
    api !! i = Some respond /\ respond r = HttpJson result /\
    Py.contains "error" result = Some false /\
    next_page_key_of result = Some k /\ Py.truthy k = true /\
    pageKey r' = Some k.
Proof.
  induction api as [|respond api IH]; intros page_key acc i r r'; cbn [requests_sent];
    [discriminate|].
  destruct i as [|i]; cbn [lookup list_lookup Nat.add].
  - intros [= <-].
    destruct (page_step body (respond _) acc) as [acc1 [key|]] eqn:Hstep;
      [|discriminate].
    apply page_step_continue in Hstep
      as (result & nfts & Hresp & Herr & _ & _ & _ & Hkey & Htruthy).
    destruct api as [|respond' api]; cbn [requests_sent]; [discriminate|].
    cbn [lookup list_lookup]. intros [= <-].
    exists respond, result, key. repeat split; auto.
    unfold build_params. cbn [pageKey]. now rewrite Htruthy.
  - destruct (page_step body (respond _) acc) as [acc1 [key|]];
      [|discriminate].
    intros Hr Hr'. exact (IH key acc1 i r r' Hr Hr').
Qed.

Lemma requests_sent_head api page_key acc r :
  requests_sent body
    (build_params contract_address page_size start_token_id end_token_id)
    api page_key acc !! 0%nat = Some r ->
  pageKey r = if Py.truthy page_key then Some page_key else None.
Proof. destruct api; [discriminate|]. now intros [= <-]. Qed.

(** No more requests than answers. *)
Lemma requests_sent_length api : forall page_key acc,
  (length (requests_sent body
             (build_params contract_address page_size start_token_id end_token_id)
             api page_key acc) <= length api)%nat.
Proof.
  induction api as [|respond api IH]; intros page_key acc; cbn [requests_sent length]; [lia|].
  destruct (page_step body (respond _) acc) as [acc1 [key|]].
  - specialize (IH key acc1). lia.
  - cbn [length]. lia.
Qed.

End requests.

Lemma clamp_min p : (if 100 <? p then 100 else p) = Z.min p 100.
Proof. destruct (Z.ltb_spec 100 p); lia. Qed.

(** X3.  Whatever the server answers, every request of a
    run of either tool carries the contract address as given, a page size
    that is the smaller of the argument and 100, and the start and end token
    ids exactly when they were given non-empty. *)
Theorem requests_carry_arguments (api : list (request -> http))
    (args : holders_args) (targs : token_ids_args) :
  Forall (fun r =>
            contractAddress r = arg_contract_address args /\
            pageSize r = Z.min (arg_page_size args) 100 /\
            startTokenId r = if_set (arg_start_token_id args) /\
            endTokenId r = if_set (arg_end_token_id args))
         (holders_requests api args) /\
  Forall (fun r =>
            contractAddress r = targ_contract_address targs /\
            pageSize r = Z.min (targ_page_size targs) 100 /\
            startTokenId r = if_set (targ_start_token_id targs) /\
            endTokenId r = if_set (targ_end_token_id targs))
         (token_ids_requests api targs).
Proof.
  split; apply Forall_forall; intros r Hr.
  - unfold holders_requests in Hr. cbv zeta in Hr.
    apply requests_sent_fields in Hr. now rewrite clamp_min in Hr.
  - unfold token_ids_requests in Hr. cbv zeta in Hr.
    apply requests_sent_fields in Hr. now rewrite clamp_min in Hr.
Qed.

(** X4.  In both scrapers the first request has no page key;
    every later request carries the non-empty [nextPageKey] of the answer to
    the request before it, an answer without an [error] field. *)
Theorem page_key_follows_answer {S : Type} (body : list json -> S -> S * status)
    (api : list (request -> http)) (contract_address : string)
    (start_token_id end_token_id : option string) (page_size : Z) (acc : S) :
  let requests :=
    requests_sent body
      (build_params contract_address page_size start_token_id end_token_id)
      api JNull acc in
  (forall r, requests !! 0%nat = Some r -> pageKey r = None) /\
  (forall i r r',
     requests !! i = Some r -> requests !! (i + 1)%nat = Some r' ->
     exists respond result k,
       api !! i = Some respond /\ respond r = HttpJson result /\
       Py.contains "error" result = Some false /\
       next_page_key_of result = Some k /\ Py.truthy k = true /\
       pageKey r' = Some k) /\
  (length requests <= length api)%nat.
Proof.
  cbv zeta. split; [|split].
  - intros r Hr. now apply requests_sent_head in Hr.
  - intros i r r'. apply requests_sent_chain.
  - apply requests_sent_length.
Qed.

(** ** What a run has collected only grows *)

Lemma holders_included_refl h : holders_included h h.
Proof. intros a S HS. now exists S. Qed.

Lemma holders_included_trans h1 h2 h3 :
  holders_included h1 h2 -> holders_included h2 h3 -> holders_included h1 h3.
Proof.
  intros H12 H23 a S HS.
  destruct (H12 a S HS) as (S2 & HS2 & Hsub2).
  destruct (H23 a S2 HS2) as (S3 & HS3 & Hsub3).
  exists S3. split; [exact HS3 | set_solver].
Qed.

Lemma holders_add_included o e h : holders_included h (holders_add o e h).
Proof.
  intros a S HS. unfold holders_add.
  destruct (decide (a = o)) as [->|Hne].
  - rewrite lookup_insert_eq, HS. eexists. split; [reflexivity|]. simpl. set_solver.
  - rewrite lookup_insert_ne by congruence. now exists S.
Qed.

Lemma holders_touch_included o h : holders_included h (holders_touch o h).
Proof.
  intros a S HS. unfold holders_touch.
  destruct (decide (a = o)) as [->|Hne].
  - rewrite lookup_insert_eq, HS. eexists. split; [reflexivity|]. simpl. set_solver.
  - rewrite lookup_insert_ne by congruence. now exists S.
Qed.

Lemma process_nft_included network nft h :
  holders_included h (fst (process_nft network nft h)).
Proof.
  unfold process_nft.
  destruct (owner_address_of nft) as [owner|]; [|apply holders_included_refl].
  destruct (token_id_of nft) as [token_id|]; [|apply holders_included_refl].
  destruct (Py.truthy owner && Py.truthy token_id); [|apply holders_included_refl].
  destruct owner as [| | | |o| |]; try apply holders_included_refl.
  destruct (token_id_hex token_id) as [t|]; [|apply holders_included_refl].
  destruct (hashable t) as [e|]; cbn [fst].
  - apply holders_add_included.
  - apply holders_touch_included.
Qed.

Lemma process_nfts_included network nfts : forall h,
  holders_included h (fst (process_nfts network nfts h)).
Proof.
  induction nfts as [|nft nfts IH]; intros h; [apply holders_included_refl|].
  rewrite process_nfts_cons.
  pose proof (process_nft_included network nft h) as Hstep.
  destruct (process_nft network nft h) as [h' []]; cbn [fst] in Hstep |- *.
  - eapply holders_included_trans; [exact Hstep | apply IH].
  - exact Hstep.
Qed.

Lemma append_token_id_prefix nft token_ids :
  token_ids `prefix_of` fst (append_token_id nft token_ids).
Proof.
  unfold append_token_id.
  destruct (token_id_of nft) as [[| | | |s| |]|]; cbn [fst];
    try reflexivity; try (now apply prefix_app_r).
  destruct (if PyStr.startswith "0x" s then _ else _); cbn [fst];
    [now apply prefix_app_r | reflexivity].
Qed.

Lemma append_token_ids_prefix nfts : forall token_ids,
  token_ids `prefix_of` fst (append_token_ids nfts token_ids).
Proof.
  induction nfts as [|nft nfts IH]; intros token_ids; [reflexivity|].
  cbn [append_token_ids].
  pose proof (append_token_id_prefix nft token_ids) as Hstep.
  destruct (append_token_id nft token_ids) as [ids []]; cbn [fst] in Hstep |- *.
  - etransitivity; [exact Hstep | apply IH].
  - exact Hstep.
Qed.

(** X5.  Whatever the later answers are, an address and
    a token id recorded after some pages are still in the holder map the
    page loop ends with: no page removes a holder or a token id. *)
Theorem collected_holders_kept (network : string) (params : json -> request)
    (earlier rest : list (request -> http)) (page_key page_key' : json)
    (h h1 h2 : gmap string (gset tok)) :
  after_pages (process_nfts network) params earlier page_key h = Some (page_key', h1) ->
  page_loop (process_nfts network) params (earlier ++ rest) page_key h = Some h2 ->
  holders_included h h1 /\ holders_included h1 h2.
Proof.
  intros Hafter Hloop. split.
  - eapply (after_pages_grows (process_nfts network) params holders_included);
      [apply holders_included_refl | apply holders_included_trans | | exact Hafter].
    intros nfts a. apply process_nfts_included.
  - rewrite (page_loop_app _ _ _ _ _ _ _ _ Hafter) in Hloop.
    eapply (page_loop_grows (process_nfts network) params holders_included);
      [apply holders_included_refl | apply holders_included_trans | | exact Hloop].
    intros nfts a. apply process_nfts_included.
Qed.

Lemma collected_holders_kept_witness :
  holders_included ∅ MoreSamples.holders_after_page_1 /\
  holders_included MoreSamples.holders_after_page_1 MoreSamples.holders_at_end.
Proof.
  apply (collected_holders_kept "starknet" (build_params "0xC0FFEE" 100 None None)
           [fun _ => HttpJson Sample.page_of_50] [fun _ => HttpJson MoreSamples.last_page]
           JNull (JStr "page-2")).
  - unfold MoreSamples.holders_after_page_1.
    set (pages := after_pages _ _ _ _ _).
    assert (Hkey : fst <$> pages = Some (JStr "page-2")) by (vm_compute; reflexivity).
    destruct pages as [[k h]|]; [|discriminate Hkey].
    injection Hkey as ->. reflexivity.
  - unfold MoreSamples.holders_at_end.
    change ([fun _ => HttpJson Sample.page_of_50] ++ [fun _ => HttpJson MoreSamples.last_page])%list
      with MoreSamples.two_pages.
    set (loop := page_loop _ _ _ _ _).
    assert (Hsome : bool_decide (is_Some (size <$> loop)) = true) by (vm_compute; reflexivity).
    destruct loop as [h|]; [reflexivity | discriminate Hsome].
Defined.

(** X6.  The list [get_collection_nfts] has after
    some pages is a prefix of the list it returns: token ids are only
    appended, in the order of the pages, duplicates included. *)
Theorem collected_token_ids_prefix (params : json -> request)
    (earlier rest : list (request -> http)) (page_key page_key' : json)
    (ids ids1 ids2 : list Z) :
  after_pages append_token_ids params earlier page_key ids = Some (page_key', ids1) ->
  page_loop append_token_ids params (earlier ++ rest) page_key ids = Some ids2 ->
  ids `prefix_of` ids1 /\ ids1 `prefix_of` ids2.
Proof.
  intros Hafter Hloop. split.
  - eapply (after_pages_grows append_token_ids params prefix);
      [reflexivity | intros a b c; apply transitivity | | exact Hafter].
    intros nfts a. apply append_token_ids_prefix.
  - rewrite (page_loop_app _ _ _ _ _ _ _ _ Hafter) in Hloop.
    eapply (page_loop_grows append_token_ids params prefix);
      [reflexivity | intros a b c; apply transitivity | | exact Hloop].
    intros nfts a. apply append_token_ids_prefix.
Qed.

Lemma collected_token_ids_prefix_witness :
  [] `prefix_of` map Z.of_nat (seq 1 50) /\
  map Z.of_nat (seq 1 50) `prefix_of` map Z.of_nat (seq 1 51).
Proof.
  apply (collected_token_ids_prefix (build_params "0xC0FFEE" 100 None None)
           [fun _ => HttpJson Sample.page_of_50] [fun _ => HttpJson MoreSamples.last_page]
           JNull (JStr "page-2")).
  - vm_compute. reflexivity.
  - vm_compute. reflexivity.
Defined.

(** ** Processing a page twice *)

Lemma holders_add_absorbed o e h g :
  holders_included (holders_add o e h) g -> holders_add o e g = g.
Proof.
  intros Hincl. unfold holders_add in *.
  destruct (Hincl o (default ∅ (h !! o) ∪ {[e]})) as (S' & HS' & Hsub).
  { apply lookup_insert_eq. }
  rewrite HS'. simpl.
  rewrite (comm_L (∪)), (subseteq_union_1_L {[e]} S')
    by (etransitivity; [apply union_subseteq_r | exact Hsub]).
  now apply insert_id.
Qed.

(** X7.  Records that were aggregated once change
    nothing when they come again, in the same page or in a later one: on
    every holder map that still holds what their first pass recorded, a
    second pass runs to its end and leaves the map as it was. *)
Theorem records_seen_before_change_nothing (network : string) (nfts : list json) :
  forall h h1 g : gmap string (gset tok),
  process_nfts network nfts h = (h1, Completed) ->
  holders_included h1 g ->
  process_nfts network nfts g = (g, Completed).
Proof.
  induction nfts as [|nft nfts IH]; intros h h1 g Hrun Hincl; [reflexivity|].
  apply process_nfts_cons_completed in Hrun as (h' & Hnft & Hrest).
  rewrite process_nfts_cons.
  assert (Hh' : holders_included h' g).
  { eapply holders_included_trans; [|exact Hincl].
    pose proof (process_nfts_included network nfts h') as H. now rewrite Hrest in H. }
  destruct (process_nft_completed network nft h h' Hnft) as [Hskip | (o & e & Hadd)].
  - rewrite Hskip. exact (IH h' h1 g Hrest Hincl).
  - rewrite Hadd. rewrite Hadd in Hnft. injection Hnft as <-.
    rewrite (holders_add_absorbed o e h g Hh').
    exact (IH _ h1 g Hrest Hincl).
Qed.

Lemma records_seen_before_change_nothing_witness :
  process_nfts "starknet" [Sample.record_ok; Sample.record_padded_hex]
    (fst (process_nfts "starknet" [Sample.record_ok; Sample.record_padded_hex] ∅))
  = (fst (process_nfts "starknet" [Sample.record_ok; Sample.record_padded_hex] ∅), Completed).
Proof.
  apply (records_seen_before_change_nothing "starknet"
           [Sample.record_ok; Sample.record_padded_hex] ∅
           (fst (process_nfts "starknet" [Sample.record_ok; Sample.record_padded_hex] ∅))).
  - assert (Hs : snd (process_nfts "starknet" [Sample.record_ok; Sample.record_padded_hex] ∅)
                 = Completed) by (vm_compute; reflexivity).
    rewrite <- Hs. apply surjective_pairing.
  - apply holders_included_refl.
Defined.

(** ** Addresses and numbers *)

Section hex_of_value.

Import PyInt PyStr.

Lemma str_append_assoc (a b c : string) : (a ++ b) ++ c = a ++ (b ++ c).
Proof.
  induction a as [|x a IH]; [reflexivity|].
  change (String x ((a ++ b) ++ c) = String x (a ++ (b ++ c))). now rewrite IH.
Qed.

Lemma str_append_nil_r (a : string) : a ++ "" = a.
Proof.
  induction a as [|x a IH]; [reflexivity|].
  change (String x (a ++ "") = String x a). now rewrite IH.
Qed.

Lemma hex_digits_aux_app fuel : forall n acc,
  hex_digits_aux fuel n acc = hex_digits_aux fuel n "" ++ acc.
Proof.
  induction fuel as [|fuel IH]; intros n acc; cbn [hex_digits_aux]; [reflexivity|].
  destruct (n <? 16); [reflexivity|].
  rewrite IH, (IH _ (String _ "")), str_append_assoc. reflexivity.
Qed.

(** More fuel than the digits need changes nothing. *)
Lemma hex_digits_aux_fuel fuel : forall fuel' n acc,
  0 <= n < 16 ^ Z.of_nat (S fuel) -> (fuel <= fuel')%nat ->
  hex_digits_aux (S fuel') n acc = hex_digits_aux (S fuel) n acc.
Proof.
  induction fuel as [|fuel IH]; intros fuel' n acc Hn Hle.
  - change (16 ^ Z.of_nat 1) with 16 in Hn. cbn [hex_digits_aux].
    destruct (Z.ltb_spec n 16); [reflexivity | lia].
  - destruct fuel' as [|fuel']; [lia|].
    cbn [hex_digits_aux]. fold (hex_digits_aux (S fuel')) (hex_digits_aux (S fuel)).
    destruct (Z.ltb_spec n 16); [reflexivity|].
    apply IH; [|lia].
    split; [apply Z.div_pos; lia|].
    apply Z.div_lt_upper_bound; [lia|].
    rewrite (Nat2Z.inj_succ (S fuel)), Z.pow_succ_r in Hn by lia. lia.
Qed.

Lemma hex_digits_enough fuel n :
  0 <= n -> (Z.to_nat (Z.log2 n) <= fuel)%nat ->
  hex_digits n = hex_digits_aux (S fuel) n "".
Proof.
  intros Hn Hle. unfold hex_digits. symmetry.
  apply hex_digits_aux_fuel; [|exact Hle].
  split; [exact Hn | now apply hex_digits_fuel].
Qed.

Lemma hex_digits_aux_step fuel m acc :
  16 <= m ->
  hex_digits_aux (S fuel) m acc
  = hex_digits_aux fuel (m / 16) (String (hex_char (m mod 16)) acc).
Proof.
  intros Hm. cbn [hex_digits_aux]. destruct (Z.ltb_spec m 16); [lia | reflexivity].
Qed.

(** One more digit at the end. *)
Lemma hex_digits_snoc n d :
  0 < n -> 0 <= d < 16 ->
  hex_digits (n * 16 + d) = hex_digits n ++ String (hex_char d) "".
Proof.
  intros Hn Hd.
  set (fuel := (Z.to_nat (Z.log2 (n * 16 + d)) + Z.to_nat (Z.log2 n))%nat).
  rewrite (hex_digits_enough (S fuel) (n * 16 + d)) by (subst fuel; lia).
  rewrite (hex_digits_enough fuel n) by (subst fuel; lia).
  rewrite hex_digits_aux_step by lia.
  replace ((n * 16 + d) / 16) with n by (apply Z.div_unique with d; lia).
  replace ((n * 16 + d) mod 16) with d by (apply Z.mod_unique with n; lia).
  apply hex_digits_aux_app.
Qed.

Lemma hex_digits_digit d : 0 <= d < 16 -> hex_digits d = String (hex_char d) "".
Proof.
  intros Hd. unfold hex_digits. cbn [hex_digits_aux].
  destruct (Z.ltb_spec d 16); [reflexivity | lia].
Qed.

Lemma is_hex_digit_value c :
  is_hex_digit c = true -> exists d, digit_value c = Some d /\ 0 <= d < 16.
Proof.
  unfold is_hex_digit, digit_value.
  set (n := Z.of_N (N_of_ascii c)).
  destruct ((48 <=? n) && (n <=? 57)) eqn:H1.
  { intros H. exists (n - 48). split; [reflexivity | lia]. }
  destruct ((97 <=? n) && (n <=? 122)) eqn:H2.
  { intros H. exists (n - 87). split; [reflexivity | lia]. }
  destruct ((65 <=? n) && (n <=? 90)) eqn:H3.
  { intros H. exists (n - 55). split; [reflexivity | lia]. }
  discriminate.
Qed.

(** [hex] prints a digit as [lower] turns it. *)
Lemma hex_char_lower_char c d :
  digit_value c = Some d -> d < 16 -> hex_char d = lower_char c.
Proof.
  destruct c as [[] [] [] [] [] [] [] []]; intros H; vm_compute in H;
    try discriminate H; injection H as <-; intros Hd;
    first [reflexivity | exfalso; lia].
Qed.

Lemma hex_digit_zero c :
  digit_value c = Some 0 -> c = "0"%char.
Proof.
  destruct c as [[] [] [] [] [] [] [] []]; intros H; vm_compute in H;
    try discriminate H; reflexivity.
Qed.

Lemma lower_char_zero c : is_hex_digit c = true ->
  Ascii.eqb (lower_char c) "0" = Ascii.eqb c "0".
Proof.
  destruct c as [[] [] [] [] [] [] [] []]; intros H; vm_compute in H;
    try discriminate H; reflexivity.
Qed.

(** After a first digit that is not zero, [hex] of the value is the digits
    in lower case. *)
Lemma hex_digits_hex_value digits : forall acc,
  0 < acc -> all_by is_hex_digit digits = true ->
  hex_digits (hex_value acc digits) = hex_digits acc ++ lower digits.
Proof.
  induction digits as [|c digits IH]; intros acc Hacc Hall.
  - cbn [hex_value lower]. now rewrite str_append_nil_r.
  - cbn [all_by] in Hall. apply andb_prop in Hall as [Hc Hall].
    destruct (is_hex_digit_value c Hc) as (d & Hd & Hrange).
    cbn [hex_value lower]. rewrite Hd. cbv beta iota.
    rewrite IH by (try assumption; lia).
    rewrite hex_digits_snoc by lia.
    rewrite (hex_char_lower_char c d Hd) by lia.
    rewrite str_append_assoc. reflexivity.
Qed.

(** [hex] of the value of a string of digits: the digits in lower case,
    without their leading zeros. *)
Lemma hex_digits_of_digits digits :
  all_by is_hex_digit digits = true ->
  0 <= hex_value 0 digits /\
  hex_digits (hex_value 0 digits)
  = let d := lstrip_char "0" (lower digits) in if String.eqb d "" then "0" else d.
Proof.
  induction digits as [|c digits IH]; intros Hall; [split; [cbn; lia | reflexivity]|].
  cbn [all_by] in Hall. apply andb_prop in Hall as [Hc Hall].
  destruct (is_hex_digit_value c Hc) as (d & Hd & Hrange).
  cbn [hex_value lower lstrip_char]. rewrite Hd. cbv beta iota. change (0 * 16 + d) with d.
  rewrite (lower_char_zero c Hc).
  destruct (Ascii.eqb_spec c "0") as [->|Hne].
  - injection Hd as <-. now apply IH.
  - assert (0 < d).
    { destruct (Z.eq_dec d 0) as [->|]; [|lia]. now apply hex_digit_zero in Hd. }
    rewrite hex_digits_hex_value by assumption.
    rewrite hex_digits_digit by lia.
    rewrite (hex_char_lower_char c d Hd) by lia.
    split; [|reflexivity].
    clear -H Hall. assert (Hpos : 0 <= d) by lia. revert Hpos. generalize d. clear.
    induction digits as [|c digits IH]; intros acc Hacc; cbn [hex_value]; [lia|].
    apply IH. destruct (digit_value c) as [k|] eqn:Hk; cbv beta iota; [|lia].
    assert (0 <= k); [|lia].
    unfold digit_value in Hk.
    repeat match type of Hk with
           | (if ?b then _ else _) = _ => destruct b eqn:?
           end; try discriminate; injection Hk as <-; lia.
Qed.

Lemma scan_hex_digits digits : forall seen acc,
  all_by is_hex_digit digits = true -> (seen = true \/ digits <> "") ->
  scan_digits 16 digits false seen acc = Some (hex_value acc digits, "").
Proof.
  induction digits as [|c digits IH]; intros seen acc Hall Hseen.
  - destruct Hseen as [-> | Hne]; [reflexivity | congruence].
  - cbn [all_by] in Hall. apply andb_prop in Hall as [Hc Hall].
    destruct (is_hex_digit_value c Hc) as (d & Hd & Hrange).
    cbn [scan_digits hex_value]. rewrite Hd. cbv beta iota.
    assert (Ascii.eqb c "_" = false) as ->.
    { destruct (Ascii.eqb_spec c "_") as [->|]; [discriminate Hd | reflexivity]. }
    destruct (Z.ltb_spec d 16); [|lia].
    apply IH; [exact Hall | now left].
Qed.

Lemma int_of_hex_digits digits :
  all_by is_hex_digit digits = true -> digits <> "" ->
  int_of_string 16 (String "0" (String "x" digits)) = Some (hex_value 0 digits).
Proof.
  intros Hall Hne. unfold int_of_string.
  change (PyStr.lstrip (String "0" (String "x" digits))) with (String "0" (String "x" digits)).
  change (skip_sign (String "0" (String "x" digits))) with (false, String "0" (String "x" digits)).
  cbv iota beta.
  destruct digits as [|c digits]; [congruence|].
  pose proof Hall as Hall'. cbn [all_by] in Hall'. apply andb_prop in Hall' as [Hc _].
  assert (Hskip : skip_prefix 16 (String "0" (String "x" (String c digits))) = String c digits).
  { unfold skip_prefix. change ((16 =? 16) && (Ascii.eqb "x" "x" || Ascii.eqb "x" "X")) with true.
    cbv iota. destruct (Ascii.eqb_spec c "_") as [->|]; [discriminate Hc|].
    destruct c as [[] [] [] [] [] [] [] []]; try reflexivity; congruence. }
  rewrite Hskip.
  assert (startswith "_" (String c digits) = false) as ->.
  { cbn [startswith]. destruct (Ascii.eqb_spec "_" c) as [<-|]; [discriminate Hc | reflexivity]. }
  rewrite scan_hex_digits by (try assumption; now right). reflexivity.
Qed.

Lemma hex_digits_no_prefix digits :
  all_by is_hex_digit digits = true -> startswith "0x" digits = false.
Proof.
  destruct digits as [|c [|x digits]]; [reflexivity| |]; cbn [startswith all_by].
  - now destruct (Ascii.eqb "0" c).
  - destruct (Ascii.eqb "0" c); [|reflexivity].
    destruct (Ascii.eqb_spec "x" x) as [<-|]; [|reflexivity].
    rewrite andb_comm. discriminate.
Qed.

Lemma format_owner_starknet network digits :
  String.eqb (lower network) "starknet" = true ->
  format_owner network (String "0" (String "x" digits))
  = String "0" (String "x" (let d := lstrip_char "0" (lower digits) in
                            if String.eqb d "" then "0" else d)).
Proof.
  intros Hnet. unfold format_owner. rewrite Hnet.
  change (startswith "0x" (String "0" (String "x" digits))) with true. cbv iota zeta.
  change (lower (String "0" (String "x" digits))) with (String "0" (String "x" (lower digits))).
  change (slice_from 2 (String "0" (String "x" (lower digits)))) with (lower digits).
  change ("0x" ++ lstrip_char "0" (lower digits))
    with (String "0" (String "x" (lstrip_char "0" (lower digits)))).
  destruct (lstrip_char "0" (lower digits)); reflexivity.
Qed.

Lemma format_owner_no_prefix network s :
  startswith "0x" s = false ->
  format_owner network s = format_owner network (String "0" (String "x" s)).
Proof. intros Hs. unfold format_owner. now rewrite Hs. Qed.

Lemma int_of_string_minus s :
  int_of_string 16 (String "-" (String "0" (String "x" s)))
  = Z.opp <$> int_of_string 16 (String "0" (String "x" s)).
Proof.
  unfold int_of_string.
  change (PyStr.lstrip (String "-" (String "0" (String "x" s))))
    with (String "-" (String "0" (String "x" s))).
  change (PyStr.lstrip (String "0" (String "x" s))) with (String "0" (String "x" s)).
  cbn [skip_sign]. cbv iota beta.
  destruct (startswith "_" (skip_prefix 16 (String "0" (String "x" s)))); [reflexivity|].
  destruct (scan_digits 16 _ false false 0) as [[v rest]|]; [|reflexivity].
  destruct (all_space rest); reflexivity.
Qed.

(** [int(hex(v), 16)] is [v] for a negative [v] too. *)
Lemma int_of_string_hex_any v : int_of_string 16 (hex v) = Some v.
Proof.
  destruct (Z.ltb_spec v 0) as [Hneg|Hpos]; [|now apply int_of_string_hex].
  pose proof (int_of_string_hex (- v) ltac:(lia)) as H.
  rewrite hex_nonneg in H by lia.
  unfold hex. destruct (Z.ltb_spec v 0); [|lia].
  change ("-0x" ++ hex_digits (- v))
    with (String "-" (String "0" (String "x" (hex_digits (- v))))).
  rewrite int_of_string_minus, H. cbn [fmap option_fmap option_map]. f_equal. lia.
Qed.

Lemma length_lower s : String.length (lower s) = String.length s.
Proof. induction s as [|c s IH]; cbn [lower String.length]; congruence. Qed.

Lemma length_lstrip_char c s : (String.length (lstrip_char c s) <= String.length s)%nat.
Proof.
  induction s as [|a s IH]; cbn [lstrip_char]; [lia|].
  destruct (Ascii.eqb a c); cbn [String.length] in *; lia.
Qed.

End hex_of_value.

(** X8.  On Starknet the key of an address written in
    hexadecimal digits, with or without [0x], in either case and with any
    zero padding, is [hex] of its numeric value: spellings of one number
    share one key. *)
Theorem starknet_address_is_hex_of_value (network digits : string) :
  String.eqb (PyStr.lower network) "starknet" = true ->
  PyStr.all_by is_hex_digit digits = true -> digits <> "" ->
  exists v, 0 <= v /\
    PyInt.int_of_string 16 (String "0" (String "x" digits)) = Some v /\
    format_owner network (String "0" (String "x" digits)) = PyInt.hex v /\
    format_owner network digits = PyInt.hex v.
Proof.
  intros Hnet Hall Hne.
  destruct (hex_digits_of_digits digits Hall) as [Hpos Hhex].
  exists (hex_value 0 digits). split; [exact Hpos|].
  split; [now apply int_of_hex_digits|].
  assert (Hprefixed : format_owner network (String "0" (String "x" digits))
                      = PyInt.hex (hex_value 0 digits)).
  { rewrite format_owner_starknet, hex_nonneg, Hhex by assumption. reflexivity. }
  split; [exact Hprefixed|].
  rewrite format_owner_no_prefix by now apply hex_digits_no_prefix.
  exact Hprefixed.
Qed.

Lemma starknet_address_is_hex_of_value_witness :
  exists v, 0 <= v /\
    PyInt.int_of_string 16 "0x00AbC" = Some v /\
    format_owner "StarkNet" "0x00AbC" = PyInt.hex v /\
    format_owner "StarkNet" "00AbC" = PyInt.hex v.
Proof.
  apply (starknet_address_is_hex_of_value "StarkNet" "00AbC"); [reflexivity | reflexivity |].
  discriminate.
Defined.

(** X9.  Only the lower-case prefix [0x] is recognised
    as one: an address that starts with [0X] gets a second prefix, and its
    key is never the key of the same address written with [0x]. *)
Theorem upper_case_prefix_not_merged (network t : string) :
  format_owner network (String "0" (String "X" t))
  = (if String.eqb (PyStr.lower network) "starknet"
     then String "0" (String "x" (String "x" (PyStr.lower t)))
     else String "0" (String "x" (String "0" (String "x" (PyStr.lower t))))) /\
  format_owner network (String "0" (String "X" t))
  <> format_owner network (String "0" (String "x" t)).
Proof.
  assert (Hupper : format_owner network (String "0" (String "X" t))
    = (if String.eqb (PyStr.lower network) "starknet"
       then String "0" (String "x" (String "x" (PyStr.lower t)))
       else String "0" (String "x" (String "0" (String "x" (PyStr.lower t)))))).
  { unfold format_owner. now destruct (String.eqb (PyStr.lower network) "starknet"). }
  split; [exact Hupper|].
  rewrite Hupper. clear Hupper.
  destruct (String.eqb (PyStr.lower network) "starknet") eqn:Hnet.
  - rewrite format_owner_starknet by assumption. cbv zeta.
    pose proof (length_lstrip_char "0" (PyStr.lower t)) as Hlen.
    rewrite length_lower in Hlen.
    destruct (PyStr.lstrip_char "0" (PyStr.lower t)) as [|a u]; [discriminate|].
    cbn [String.eqb]. intros [= <- Hu].
    apply (f_equal String.length) in Hu. rewrite length_lower in Hu.
    cbn [String.length] in Hlen. lia.
  - unfold format_owner. rewrite Hnet.
    change (PyStr.startswith "0x" (String "0" (String "x" t))) with true. cbv iota zeta.
    change (PyStr.lower (String "0" (String "x" t)))
      with (String "0" (String "x" (PyStr.lower t))).
    intros [= Hu]. apply (f_equal String.length) in Hu.
    cbn [String.length] in Hu. lia.
Qed.

(** X10.  Whenever [scrape_holders.py] stores the
    string [s] for the token id of a record and [scrape_token_ids.py]
    appends the number [z] for the same record, [int(s, 16)] is [z]. *)
Theorem scrapers_agree_on_token_id (nft token_id : json) (s : string)
    (token_ids token_ids' : list Z) :
  token_id_of nft = Some token_id ->
  token_id_hex token_id = Some (JStr s) ->
  append_token_id nft token_ids = (token_ids', Completed) ->
  exists z, token_ids' = (token_ids ++ [z])%list /\ PyInt.int_of_string 16 s = Some z.
Proof.
  intros Hid Hhex. unfold append_token_id. rewrite Hid.
  destruct token_id as [|b|z|q|raw|l|d]; cbn [token_id_hex] in Hhex; try discriminate.
  - injection Hhex as <-. intros [= <-]. exists (Z.b2z b).
    split; [reflexivity | apply int_of_string_hex_any].
  - injection Hhex as <-. intros [= <-]. exists z.
    split; [reflexivity | apply int_of_string_hex_any].
  - destruct (PyStr.startswith "0x" raw).
    + injection Hhex as <-.
      destruct (PyInt.int_of_string 16 raw) as [z|]; [|discriminate].
      intros [= <-]. now exists z.
    + destruct (PyInt.int_of_string 10 raw) as [z|]; [|discriminate].
      cbn [mbind option_bind] in Hhex. injection Hhex as <-.
      intros [= <-]. exists z. split; [reflexivity | apply int_of_string_hex_any].
Qed.

Lemma scrapers_agree_on_token_id_witness :
  exists z, [26] = ([] ++ [z])%list /\ PyInt.int_of_string 16 "0x1a" = Some z.
Proof.
  apply (scrapers_agree_on_token_id Sample.record_ok (JStr "26") "0x1a" [] [26]);
    reflexivity.
Defined.

(** ** The document and the holder map *)

Lemma sort_token_ids_None S :
  sort_token_ids S = None <-> exists t, t ∈ S /\ hex_key t = None.
Proof.
  unfold sort_token_ids.
  transitivity (mapM hex_key (elements S) = None).
  { destruct (mapM hex_key (elements S)); [split; discriminate | tauto]. }
  rewrite mapM_None, Exists_exists.
  split; intros (t & Ht & Hk); exists t; (split; [|exact Hk]); now apply elem_of_elements.
Qed.

Lemma snapshot_data_of_None h :
  snapshot_data_of h = None <->
  exists a S t, h !! a = Some S /\ t ∈ S /\ hex_key t = None.
Proof.
  unfold snapshot_data_of. rewrite mapM_None, Exists_exists. split.
  - intros ([a S] & Hin & Hnone). cbn [fst snd] in Hnone.
    rewrite merge_sort_Permutation in Hin. apply elem_of_map_to_list in Hin.
    destruct (sort_token_ids S) as [ids|] eqn:Hsort; [discriminate|].
    apply sort_token_ids_None in Hsort as (t & Ht & Hk). now exists a, S, t.
  - intros (a & S & t & Ha & Ht & Hk). exists (a, S). split.
    + rewrite merge_sort_Permutation. now apply elem_of_map_to_list.
    + cbn [fst snd].
      assert (sort_token_ids S = None) as -> by (apply sort_token_ids_None; eauto).
      reflexivity.
Qed.

Lemma sort_token_ids_elements S ids :
  sort_token_ids S = Some ids -> TStr <$> ids ≡ₚ elements S.
Proof.
  intros (keyed & Hkeyed & ->)%sort_token_ids_spec.
  change (TStr <$> (snd <$> merge_sort key_le keyed) ≡ₚ elements S).
  rewrite merge_sort_Permutation.
  assert (TStr <$> (snd <$> keyed) = elements S) as ->; [|reflexivity].
  induction Hkeyed as [|t [z s] ts keyed Hk _ IH]; [reflexivity|].
  apply hex_key_Some in Hk as [-> _]. cbn [fmap list_fmap snd] in *. now rewrite IH.
Qed.

Lemma snapshot_data_total items : forall data,
  Forall2 (fun (item : string * gset tok) (e : string * list string) =>
             fst e = fst item /\ sort_token_ids (snd item) = Some (snd e)) items data ->
  fold_right Nat.add 0%nat (map (fun holder => length (snd holder)) data)
  = sum_list ((fun item => size (snd item)) <$> items).
Proof.
  induction 1 as [|item e items data [_ Hsort] _ IH]; [reflexivity|].
  cbn [map fold_right fmap list_fmap sum_list sum_list_with]. rewrite IH. f_equal.
  apply sort_token_ids_elements in Hsort.
  apply Permutation_length in Hsort. rewrite length_fmap in Hsort.
  exact Hsort.
Qed.

(** X11.  The sort of the token ids by
    [int(x, 16)] is outside the [try]: [get_collection_holders] ends with an
    exception exactly when some stored token id is no string that [int]
    reads in base 16. *)
Theorem build_snapshot_raises_iff (holders_tokens : gmap string (gset tok))
    (contract_address network collection_name description : string)
    (block_height : option Z) :
  build_snapshot holders_tokens contract_address network collection_name
    description block_height = Uncaught
  <-> exists a S t, holders_tokens !! a = Some S /\ t ∈ S /\ hex_key t = None.
Proof.
  rewrite <- snapshot_data_of_None. unfold build_snapshot.
  destruct (snapshot_data_of holders_tokens); split; intros H;
    first [discriminate H | reflexivity].
Qed.

(** X12.  A record whose token id is a
    float, or a string that starts with [0x] and is no hex number, is
    recorded without an error; from then on no document is returned,
    whatever else is fetched: the sort raises on every holder map that
    still holds the record. *)
Theorem unsortable_token_id_fails_the_run (network : string) (nft token_id t : json)
    (o : string) (e : tok) (h g : gmap string (gset tok))
    (contract_address network' collection_name description : string)
    (block_height : option Z) :
  owner_address_of nft = Some (JStr o) -> o <> "" ->
  token_id_of nft = Some token_id -> Py.truthy token_id = true ->
  token_id_hex token_id = Some t -> hashable t = Some e -> hex_key e = None ->
  holders_included (fst (process_nft network nft h)) g ->
  snd (process_nft network nft h) = Completed /\
  build_snapshot g contract_address network' collection_name description block_height
  = Uncaught.
Proof.
  intros Ho Hne Hid Htruthy Hhex Hhash Hkey. unfold process_nft.
  rewrite Ho, Hid, Htruthy, Hhex, Hhash.
  assert (Py.truthy (JStr o) = true) as ->.
  { cbn [Py.truthy]. destruct (String.eqb_spec o ""); [congruence | reflexivity]. }
  cbn [andb fst snd]. intros Hincl. split; [reflexivity|].
  unfold build_snapshot.
  assert (snapshot_data_of g = None) as ->; [|reflexivity].
  apply snapshot_data_of_None.
  destruct (Hincl (format_owner network o)
              (default ∅ (h !! format_owner network o) ∪ {[e]})) as (S' & HS' & Hsub).
  { unfold holders_add. apply lookup_insert_eq. }
  exists (format_owner network o), S', e. split; [exact HS'|].
  split; [|exact Hkey]. apply Hsub, elem_of_union_r, elem_of_singleton. reflexivity.
Qed.

Lemma unsortable_token_id_fails_the_run_witness :
  snd (process_nft "starknet"
         MoreSamples.record_bad_hex ∅) = Completed /\
  build_snapshot
    (fst (process_nft "starknet"
            MoreSamples.record_bad_hex ∅))
    "0xC0FFEE" "starknet" "n" "d" None = Uncaught.
Proof.
  apply (unsortable_token_id_fails_the_run "starknet"
           MoreSamples.record_bad_hex
           (JStr "0xZZ") (JStr "0xZZ") "0xabc" (TStr "0xZZ") ∅).
  - reflexivity.
  - discriminate.
  - reflexivity.
  - reflexivity.
  - reflexivity.
  - reflexivity.
  - reflexivity.
  - apply holders_included_refl.
Defined.

(** X13.  A document that is returned
    lists every address of the holder map once, in [snapshot], with every
    token id recorded for it once; the totals [save_snapshot] prints are the
    number of addresses and the number of recorded (address, token id)
    pairs, and the snapshot is empty exactly when no holder was recorded. *)
Theorem snapshot_lists_holder_map (holders_tokens : gmap string (gset tok))
    (contract_address network collection_name description : string)
    (block_height : option Z) (doc : snapshot_doc) :
  build_snapshot holders_tokens contract_address network collection_name
    description block_height = Returned doc ->
  map fst (snapshot doc) ≡ₚ map fst (map_to_list holders_tokens) /\
  NoDup (map fst (snapshot doc)) /\
  (forall a ids, (a, ids) ∈ snapshot doc ->
     exists S, holders_tokens !! a = Some S /\ TStr <$> ids ≡ₚ elements S) /\
  total_unique_holders doc = size holders_tokens /\
  total_nfts doc = sum_list ((fun item => size (snd item)) <$> map_to_list holders_tokens) /\
  (snapshot doc = [] <-> holders_tokens = ∅).
Proof.
  unfold build_snapshot.
  destruct (snapshot_data_of holders_tokens) as [data|] eqn:Hdata; [|discriminate].
  intros [= <-]. unfold total_unique_holders, total_nfts. cbn [snapshot].
  pose proof (snapshot_data_addresses _ _ Hdata) as Haddr.
  pose proof (snapshot_data_of_spec _ _ Hdata) as Hspec.
  assert (Hperm : map fst data ≡ₚ map fst (map_to_list holders_tokens)).
  { rewrite Haddr, !map_fmap. now rewrite merge_sort_Permutation. }
  assert (Hlen : length data = size holders_tokens).
  { rewrite <- length_map_to_list, <- (length_map fst data), Hperm. apply length_map. }
  split; [exact Hperm|]. split; [|split; [|split; [|split]]].
  - rewrite Hperm, map_fmap. apply NoDup_fst_map_to_list.
  - intros a ids Hin. apply list_elem_of_lookup in Hin as [i Hi].
    destruct (Forall2_lookup_r _ _ _ _ _ Hspec Hi) as ([a' S] & Hitem & Ha & HS).
    cbn [fst snd] in Ha, HS. subst a'. exists S. split.
    + apply elem_of_map_to_list. rewrite <- (merge_sort_Permutation addr_le).
      apply list_elem_of_lookup. now exists i.
    + now apply sort_token_ids_elements.
  - exact Hlen.
  - rewrite (snapshot_data_total _ _ Hspec).
    unfold sum_list. now rewrite merge_sort_Permutation.
  - split.
    + intros ->. apply map_size_empty_iff. now rewrite <- Hlen.
    + intros ->. rewrite map_size_empty in Hlen. now apply nil_length_inv.
Qed.

Lemma snapshot_lists_holder_map_witness :
  map fst (snapshot MoreSamples.two_token_doc)
  ≡ₚ map fst (map_to_list MoreSamples.two_token_holders) /\
  NoDup (map fst (snapshot MoreSamples.two_token_doc)) /\
  (forall a ids, (a, ids) ∈ snapshot MoreSamples.two_token_doc ->
     exists S, MoreSamples.two_token_holders !! a = Some S /\ TStr <$> ids ≡ₚ elements S) /\
  total_unique_holders MoreSamples.two_token_doc = size MoreSamples.two_token_holders /\
  total_nfts MoreSamples.two_token_doc
  = sum_list ((fun item => size (snd item)) <$> map_to_list MoreSamples.two_token_holders) /\
  (snapshot MoreSamples.two_token_doc = [] <-> MoreSamples.two_token_holders = ∅).
Proof.
  apply (snapshot_lists_holder_map _ "0xC0FFEE" "starknet" "n" "d" None).
  vm_compute. reflexivity.
Defined.

(** ** The file of token ids *)

Lemma sorted_distinct_Z (l : list Z) :
  StronglySorted Z.le l -> NoDup l -> StronglySorted Z.lt l.
Proof.
  induction 1 as [|x l Hs IH Hall]; intros Hnd; [constructor|].
  apply NoDup_cons in Hnd as [Hx Hnd].
  constructor; [now apply IH|].
  apply Forall_forall. intros y Hy.
  rewrite Forall_forall in Hall. specialize (Hall y Hy).
  assert (x <> y) by (intros ->; contradiction). lia.
Qed.

Lemma unique_ids_elem_of token_ids z : z ∈ unique_ids token_ids <-> z ∈ token_ids.
Proof.
  unfold unique_ids. rewrite merge_sort_Permutation, elem_of_elements.
  apply elem_of_list_to_set.
Qed.

Lemma unique_ids_sorted token_ids : StronglySorted Z.lt (unique_ids token_ids).
Proof.
  apply sorted_distinct_Z.
  - apply StronglySorted_merge_sort; apply _.
  - unfold unique_ids. rewrite merge_sort_Permutation. apply NoDup_elements.
Qed.

Lemma fold_min_sorted x l :
  Forall (Z.lt x) l -> fold_right Z.min x l = x.
Proof.
  induction 1 as [|y l Hy _ IH]; [reflexivity|]. cbn [fold_right]. rewrite IH. lia.
Qed.

Lemma list_last_cons (l : list Z) : forall x y, List.last (y :: l) x = List.last l y.
Proof.
  induction l as [|a l IH]; intros x y; [reflexivity|].
  change (List.last (a :: l) x = List.last (a :: l) y).
  now rewrite (IH x a), (IH y a).
Qed.

Lemma fold_max_sorted l : forall x,
  StronglySorted Z.lt (x :: l) -> fold_right Z.max x l = List.last l x.
Proof.
  induction l as [|y l IH]; intros x Hs; [reflexivity|].
  apply StronglySorted_inv in Hs as [Hs Hall].
  cbn [fold_right].
  rewrite list_last_cons, <- (IH y Hs).
  apply Forall_cons in Hall as [Hxy Hall].
  assert (Heq : x <= y -> Z.max y (fold_right Z.max x l) = fold_right Z.max y l).
  { clear. intros Hxy. induction l as [|z l IH]; cbn [fold_right]; lia. }
  apply Heq. lia.
Qed.

(** X14.  [save_token_ids] writes every collected
    token id once, in strictly ascending order, whatever the order and the
    repetitions of the collected list; the range it prints is the first and
    the last of them. *)
Theorem saved_token_ids_sorted_unique (token_ids : list Z) :
  StronglySorted Z.lt (unique_ids token_ids) /\
  (forall z, z ∈ unique_ids token_ids <-> z ∈ token_ids) /\
  (length (unique_ids token_ids) <= length token_ids)%nat /\
  printed_range (unique_ids token_ids)
  = match unique_ids token_ids with
    | [] => None
    | first :: rest => Some (first, List.last rest first)
    end.
Proof.
  pose proof (unique_ids_sorted token_ids) as Hsorted.
  split; [exact Hsorted|]. split; [apply unique_ids_elem_of|]. split.
  - unfold unique_ids. rewrite merge_sort_Permutation.
    rewrite <- (length_fmap id token_ids), list_fmap_id.
    generalize token_ids. clear. intros l.
    induction l as [|z l IH]; [rewrite list_to_set_nil, elements_empty; cbn; lia|].
    rewrite list_to_set_cons. destruct (decide (z ∈ (list_to_set l : gset Z))) as [Hin|Hin].
    + replace ({[z]} ∪ list_to_set l : gset Z) with (list_to_set l : gset Z)
        by (apply set_eq; intros k; rewrite elem_of_union, elem_of_singleton;
            split; [tauto | intros [->|]; tauto]).
      cbn [length]. lia.
    + rewrite elements_union_singleton by exact Hin. cbn [length]. lia.
  - unfold printed_range. destruct (unique_ids token_ids) as [|x l]; [reflexivity|].
    rewrite fold_max_sorted by exact Hsorted.
    apply StronglySorted_inv in Hsorted as [_ Hall].
    now rewrite fold_min_sorted.
Qed.

(** The same set of collected ids gives the same file. *)
Lemma unique_ids_ext l l' :
  (forall z, z ∈ l <-> z ∈ l') -> unique_ids l = unique_ids l'.
Proof.
  intros Hsame. unfold unique_ids. f_equal. f_equal.
  apply set_eq. intros z. rewrite !elem_of_list_to_set. apply Hsame.
Qed.

(** X15.  The list that is written depends on the
    set of the collected token ids only, and writing it again changes
    nothing: [sorted(list(set(...)))] of its own output is that output. *)
Theorem saved_token_ids_canonical (token_ids token_ids' : list Z) :
  ((forall z, z ∈ token_ids <-> z ∈ token_ids') ->
   unique_ids token_ids = unique_ids token_ids') /\
  unique_ids (unique_ids token_ids) = unique_ids token_ids /\
  unique_ids (token_ids ++ token_ids)%list = unique_ids token_ids.
Proof.
  split; [apply unique_ids_ext|]. split.
  - apply unique_ids_ext. intros z. apply unique_ids_elem_of.
  - apply unique_ids_ext. intros z. rewrite elem_of_app. tauto.
Qed.

(** *** The csv format *)

Lemma range_step_length stop step :
  length (range_step stop step) = ((stop + step - 1) / step)%nat.
Proof. unfold range_step. now rewrite length_map, length_seq. Qed.

Lemma chunks_concat (n : nat) (l : list Z) (m : nat) :
  concat (map (fun i => slice i n l) (map (fun k => (k * n)%nat) (seq 0 m)))
  = take (m * n) l.
Proof.
  induction m as [|m IH]; [reflexivity|].
  rewrite seq_S, !map_app, concat_app, IH. cbn [map concat Nat.add].
  rewrite app_nil_r. unfold slice.
  rewrite take_take_drop. f_equal. lia.
Qed.

Lemma batches_bound (len : nat) :
  (len <= (len + 100 - 1) / 100 * 100 /\ ((len + 100 - 1) / 100 - 1) * 100 < len + 100
   /\ (0 < len -> ((len + 100 - 1) / 100 - 1) * 100 < len))%nat.
Proof.
  pose proof (Nat.div_mod_eq (len + 100 - 1) 100) as Hdm.
  pose proof (Nat.mod_upper_bound (len + 100 - 1) 100 ltac:(lia)) as Hmod.
  set (q := ((len + 100 - 1) / 100)%nat) in *.
  set (r := ((len + 100 - 1) mod 100)%nat) in *.
  lia.
Qed.

(** X16.  The lines of the csv format hold the sorted token
    ids in order, nothing lost and nothing repeated: every line holds at
    least one and at most 100 ids, and every line but the last exactly
    100.  No line is written for an empty list. *)
Theorem csv_batches_cover (unique_ids : list Z) :
  concat (csv_batches unique_ids) = unique_ids /\
  length (csv_batches unique_ids) = ((length unique_ids + 99) / 100)%nat /\
  (forall i batch, csv_batches unique_ids !! i = Some batch ->
     (0 < length batch <= 100)%nat /\
     ((i + 1 < length (csv_batches unique_ids))%nat -> length batch = 100%nat)).
Proof.
  pose proof (batches_bound (length unique_ids)) as (Hcover & _ & Hlast).
  assert (Hlen : length (csv_batches unique_ids) = ((length unique_ids + 100 - 1) / 100)%nat).
  { unfold csv_batches. now rewrite length_map, range_step_length. }
  split; [|split].
  - unfold csv_batches, range_step. rewrite chunks_concat.
    apply take_ge. exact Hcover.
  - rewrite Hlen. f_equal. lia.
  - intros i batch Hi.
    assert (Hi' : (i < length (csv_batches unique_ids))%nat)
      by (apply lookup_lt_is_Some; eauto).
    unfold csv_batches, range_step in Hi.
    rewrite !list_lookup_fmap in Hi.
    rewrite lookup_seq_lt in Hi by (rewrite <- Hlen; exact Hi').
    cbn [fmap option_fmap option_map Nat.add] in Hi. injection Hi as <-.
    unfold slice. rewrite length_take, length_drop.
    rewrite Hlen in Hi' |- *.
    set (q := ((length unique_ids + 100 - 1) / 100)%nat) in *.
    assert (0 < length unique_ids)%nat.
    { destruct unique_ids; [|cbn [length]; lia]. cbn in q. subst q. cbn in Hi'. lia. }
    specialize (Hlast ltac:(assumption)).
    split; [nia|]. intros Hnext. nia.
Qed.

(** ** [process_og_snapshot.py] *)

Lemma unique_in_order_elem_of addrs : forall seen a,
  a ∈ unique_in_order seen addrs <-> a ∈ addrs /\ a ∉ seen.
Proof.
  induction addrs as [|addr addrs IH]; intros seen a; cbn [unique_in_order].
  - rewrite !elem_of_nil. tauto.
  - destruct (decide (addr ∈ seen)) as [Hin|Hin].
    + rewrite IH, elem_of_cons. split; [tauto|]. intros [[->|] ?]; tauto.
    + rewrite !elem_of_cons, IH, elem_of_union, elem_of_singleton.
      destruct (decide (a = addr)) as [->|]; tauto.
Qed.

Lemma unique_in_order_NoDup addrs : forall seen, NoDup (unique_in_order seen addrs).
Proof.
  induction addrs as [|addr addrs IH]; intros seen; cbn [unique_in_order]; [constructor|].
  destruct (decide (addr ∈ seen)); [apply IH|].
  apply NoDup_cons. split; [|apply IH].
  rewrite unique_in_order_elem_of, elem_of_union, elem_of_singleton. tauto.
Qed.

Lemma unique_in_order_sublist addrs : forall seen,
  unique_in_order seen addrs `sublist_of` addrs.
Proof.
  induction addrs as [|addr addrs IH]; intros seen; cbn [unique_in_order]; [constructor|].
  destruct (decide (addr ∈ seen)); [apply sublist_cons | apply sublist_skip]; apply IH.
Qed.

Lemma duplicate_count_length addrs : forall seen,
  (duplicate_count seen addrs + length (unique_in_order seen addrs) = length addrs)%nat.
Proof.
  induction addrs as [|addr addrs IH]; intros seen;
    cbn [duplicate_count unique_in_order length]; [reflexivity|].
  destruct (decide (addr ∈ seen)).
  - specialize (IH seen). lia.
  - specialize (IH ({[addr]} ∪ seen)). cbn [length]. lia.
Qed.

Lemma unique_in_order_snoc addrs : forall seen a,
  unique_in_order seen (addrs ++ [a])%list
  = (unique_in_order seen addrs
     ++ (if decide (a ∈ seen \/ a ∈ addrs) then [] else [a]))%list.
Proof.
  induction addrs as [|addr addrs IH]; intros seen a; cbn [app unique_in_order].
  - destruct (decide (a ∈ seen)) as [Hin|Hin].
    + rewrite decide_True by tauto. reflexivity.
    + rewrite decide_False; [reflexivity|]. rewrite elem_of_nil. tauto.
  - destruct (decide (addr ∈ seen)) as [Hin|Hin]; rewrite IH; cbn [app]; do 2 f_equal.
    + apply decide_ext. rewrite elem_of_cons. split; [tauto|].
      intros [?|[->|?]]; tauto.
    + apply decide_ext. rewrite elem_of_cons, elem_of_union, elem_of_singleton. tauto.
Qed.

(** X17.  The addresses that are kept are the
    Sepolia addresses without repetition, each at the place of its first
    occurrence; an address that comes again later is dropped and counted,
    so that the numbers printed add up. *)
Theorem og_duplicates_removed (addrs : list string) (a : string) :
  NoDup (unique_in_order ∅ addrs) /\
  (forall x, x ∈ unique_in_order ∅ addrs <-> x ∈ addrs) /\
  unique_in_order ∅ addrs `sublist_of` addrs /\
  unique_in_order ∅ (addrs ++ [a])%list
  = (unique_in_order ∅ addrs ++ (if decide (a ∈ addrs) then [] else [a]))%list /\
  (duplicate_count ∅ addrs + length (unique_in_order ∅ addrs) = length addrs)%nat.
Proof.
  split; [apply unique_in_order_NoDup|]. split; [|split; [|split]].
  - intros x. rewrite unique_in_order_elem_of, elem_of_empty. tauto.
  - apply unique_in_order_sublist.
  - rewrite unique_in_order_snoc. do 2 f_equal.
    apply decide_ext. rewrite elem_of_empty. tauto.
  - apply duplicate_count_length.
Qed.

Lemma og_entries_lookup addrs : forall idx i e,
  og_entries idx addrs !! i = Some e <->
  exists a, addrs !! i = Some a /\ e = (a, [PyInt.hex (idx + Z.of_nat i + 1)]).
Proof.
  induction addrs as [|addr addrs IH]; intros idx i e; cbn [og_entries].
  - rewrite !lookup_nil. split; [discriminate | intros (a & Ha & _); discriminate].
  - destruct i as [|i]; cbn [lookup list_lookup].
    + rewrite Z.add_0_r. split.
      * intros [= <-]. now exists addr.
      * intros (a & [= <-] & ->). reflexivity.
    + change (og_entries (idx + 1) addrs !! i = Some e <->
              exists a, addrs !! i = Some a /\
                        e = (a, [PyInt.hex (idx + Z.of_nat (S i) + 1)])).
      rewrite IH. replace (idx + 1 + Z.of_nat i + 1) with (idx + Z.of_nat (S i) + 1) by lia.
      reflexivity.
Qed.

Lemma sepolia_addresses_elem_of rows a :
  a ∈ sepolia_addresses rows <->
  exists row, row ∈ rows /\ starknetNetwork row = "sepolia" /\
              PyStr.strip (starknetWalletAddress row) = a /\ a <> "".
Proof.
  induction rows as [|row rows IH]; cbn [sepolia_addresses].
  - rewrite elem_of_nil. split; [tauto|]. intros (r & Hr & _). now apply elem_of_nil in Hr.
  - cbv zeta.
    destruct (String.eqb_spec (PyStr.strip (starknetWalletAddress row)) "") as [Hempty|Hwallet].
    + rewrite IH. split; intros (r & Hr & Hnet & Hw & Hne).
      * exists r. rewrite elem_of_cons. tauto.
      * apply elem_of_cons in Hr as [->|Hr]; [congruence|]. now exists r.
    + destruct (String.eqb_spec (starknetNetwork row) "sepolia") as [Hsep|Hother].
      * rewrite elem_of_cons, IH. split.
        -- intros [-> | (r & Hr & Hrest)]; [exists row | exists r];
             rewrite elem_of_cons; tauto.
        -- intros (r & Hr & Hnet & Hw & Hne).
           apply elem_of_cons in Hr as [->|Hr]; [now left | right; now exists r].
      * rewrite IH. split; intros (r & Hr & Hnet & Hw & Hne).
        -- exists r. rewrite elem_of_cons. tauto.
        -- apply elem_of_cons in Hr as [->|Hr]; [congruence|]. now exists r.
Qed.

(** X18.  The k-th entry of the OG snapshot is the k-th
    distinct Sepolia address with the single token id [hex(k)], counted from
    1, which [int(x, 16)] reads back as k; the addresses listed are the
    wallet addresses of the rows whose network is [sepolia], stripped of
    white space and otherwise as they are in the file, each once. *)
Theorem og_snapshot_entries (rows : list og_row) :
  let doc := process_og_snapshot rows in
  (forall i a ids, snapshot doc !! i = Some (a, ids) ->
     unique_in_order ∅ (sepolia_addresses rows) !! i = Some a /\
     ids = [PyInt.hex (Z.of_nat i + 1)] /\
     PyInt.int_of_string 16 (PyInt.hex (Z.of_nat i + 1)) = Some (Z.of_nat i + 1)) /\
  length (snapshot doc) = length (unique_in_order ∅ (sepolia_addresses rows)) /\
  NoDup (map fst (snapshot doc)) /\
  (forall a, a ∈ map fst (snapshot doc) <->
     exists row, row ∈ rows /\ starknetNetwork row = "sepolia" /\
                 PyStr.strip (starknetWalletAddress row) = a /\ a <> "").
Proof.
  cbv zeta. cbn [process_og_snapshot snapshot].
  set (addrs := unique_in_order ∅ (sepolia_addresses rows)).
  assert (Hfst : map fst (og_entries 0 addrs) = addrs).
  { generalize 0. induction addrs as [|a l IH]; intros idx; [reflexivity|].
    cbn [og_entries map fst]. now rewrite IH. }
  split; [|split; [|split]].
  - intros i a ids Hi. apply og_entries_lookup in Hi as (a' & Ha' & [= -> ->]).
    rewrite Z.add_0_l. repeat split; [exact Ha'|]. apply int_of_string_hex_any.
  - rewrite <- Hfst at 2. now rewrite length_map.
  - rewrite Hfst. apply unique_in_order_NoDup.
  - intros a. rewrite Hfst. subst addrs.
    rewrite unique_in_order_elem_of, sepolia_addresses_elem_of, elem_of_empty. tauto.
Qed.

(** X19.  Every row of the CSV is counted in at
    most one of the four lists of the statistics; the four counts add up to
    the number of rows exactly when every row with a wallet address names
    one of the networks [sepolia], [mainnet] and [ethereum-mainnet]. *)
Theorem og_rows_counted_once (rows : list og_row) :
  let counted :=
    (length (empty_addresses rows) + length (sepolia_addresses rows)
     + length (mainnet_addresses rows) + length (ethereum_mainnet_addresses rows))%nat in
  (counted <= length rows)%nat /\
  (counted = length rows <->
   Forall (fun row => PyStr.strip (starknetWalletAddress row) = ""
                      \/ starknetNetwork row = "sepolia"
                      \/ starknetNetwork row = "mainnet"
                      \/ starknetNetwork row = "ethereum-mainnet") rows).
Proof.
  cbv zeta.
  induction rows as [|row rows [IH1 IH2]]; [split; [reflexivity | split; auto]|].
  cbn [empty_addresses sepolia_addresses mainnet_addresses ethereum_mainnet_addresses].
  cbv zeta. rewrite Forall_cons, <- IH2.
  destruct (String.eqb_spec (PyStr.strip (starknetWalletAddress row)) "") as [Hempty|Hwallet];
    [cbn [length]; split; [lia | split; [intros; split; [tauto | lia] | intros [_ ?]; lia]]|].
  destruct (String.eqb_spec (starknetNetwork row) "sepolia") as [Hsep|Hnsep];
    [cbn [length]; split; [lia | split; [intros; split; [tauto | lia] | intros [_ ?]; lia]]|].
  destruct (String.eqb_spec (starknetNetwork row) "mainnet") as [Hmain|Hnmain];
    [cbn [length]; split; [lia | split; [intros; split; [tauto | lia] | intros [_ ?]; lia]]|].
  destruct (String.eqb_spec (starknetNetwork row) "ethereum-mainnet") as [Heth|Hneth];
    [cbn [length]; split; [lia | split; [intros; split; [tauto | lia] | intros [_ ?]; lia]]|].
  cbn [length]. split; [lia|]. split; [lia | intros [? _]; tauto].
Qed.

(** ** The charts of [analyze_distribution.py] *)

Section charts.

Import Lorenz.

Lemma sort_values_sorted amounts : StronglySorted Z.le (sort_values amounts).
Proof. apply StronglySorted_merge_sort; apply _. Qed.

Lemma sort_values_Permutation amounts : sort_values amounts ≡ₚ amounts.
Proof. apply merge_sort_Permutation. Qed.

Lemma sort_values_of_Permutation l l' : l ≡ₚ l' -> sort_values l = sort_values l'.
Proof.
  intros Hperm. apply (StronglySorted_unique Z.le); try apply sort_values_sorted.
  now rewrite !sort_values_Permutation.
Qed.





(** [int64] arithmetic *)
Lemma int64_small z : - 2 ^ 63 <= z < 2 ^ 63 -> Np.int64 z = z.
Proof. intros Hz. unfold Np.int64. rewrite Z.mod_small; lia. Qed.

Lemma int64_range z : - 2 ^ 63 <= Np.int64 z < 2 ^ 63.
Proof.
  unfold Np.int64. pose proof (Z.mod_pos_bound (z + 2 ^ 63) (2 ^ 64) ltac:(lia)). lia.
Qed.







End charts.

Section lorenz_theorems.

Import Lorenz.

(** X21.  The Gini coefficient and the two cumulative
    columns do not depend on the order of the rows of the CSV. *)
Theorem charts_order_insensitive (amounts amounts' : list Z) :
  amounts ≡ₚ amounts' ->
  create_lorenz_curve amounts = create_lorenz_curve amounts' /\
  Charts.cumulative_tokens amounts = Charts.cumulative_tokens amounts' /\
  Charts.cumulative_holders amounts = Charts.cumulative_holders amounts'.
Proof.
  intros Hperm. unfold create_lorenz_curve, Charts.cumulative_tokens, Charts.cumulative_holders.
  now rewrite (sort_values_of_Permutation _ _ Hperm).
Qed.

Lemma charts_order_insensitive_witness :
  create_lorenz_curve [3; 1; 2]%Z = create_lorenz_curve [1; 2; 3]%Z /\
  Charts.cumulative_tokens [3; 1; 2]%Z = Charts.cumulative_tokens [1; 2; 3]%Z /\
  Charts.cumulative_holders [3; 1; 2]%Z = Charts.cumulative_holders [1; 2; 3]%Z.
Proof.
  apply charts_order_insensitive.
  etransitivity; [apply perm_swap | apply perm_skip, perm_swap].
Defined.

End lorenz_theorems.

Section chart_columns.

Import Lorenz.



Lemma fold_max_spec x (l : list Z) :
  fold_right Z.max x l ∈ x :: l /\ forall a, a ∈ x :: l -> a <= fold_right Z.max x l.
Proof.
  induction l as [|y l [Hin Hub]]; cbn [fold_right].
  - split; [left|]. intros a Ha. apply list_elem_of_singleton in Ha. lia.
  - split.
    + destruct (Z.max_spec y (fold_right Z.max x l)) as [[_ ->] | [_ ->]].
      * apply elem_of_cons in Hin as [Hin|Hin]; [rewrite Hin; left|].
        now do 2 right.
      * right. left.
    + intros a Ha. apply elem_of_cons in Ha as [->|Ha].
      * specialize (Hub x ltac:(left)). lia.
      * apply elem_of_cons in Ha as [->|Ha]; [lia|].
        specialize (Hub a ltac:(now right)). lia.
Qed.

(** X24.  For an [int64] column, the bin edges handed to [plt.hist]
    ascend exactly when some amount is at least 999 and none is the largest
    [int64], 2^63 - 1.  For a column whose largest amount is below 999 the
    last edge [max + 1] lies below the edge 1000 before it; for a column
    that holds 2^63 - 1 the sum [max + 1] wraps around to -2^63. *)
Theorem histogram_bins_ascend (amounts bins : list Z) :
  Forall (fun a => - 2 ^ 63 <= a < 2 ^ 63) amounts ->
  Charts.bins amounts = Some bins ->
  (StronglySorted Z.le bins <->
   (exists a, a ∈ amounts /\ 999 <= a) /\ Forall (fun a => a < 2 ^ 63 - 1) amounts) /\
  (List.last bins 0 < 1000 <->
   Forall (fun a => a < 999) amounts \/ 2 ^ 63 - 1 ∈ amounts).
Proof.
  unfold Charts.bins, Charts.amount_max. intros Hrange.
  destruct amounts as [|x l]; [discriminate|].
  cbn [mbind option_bind]. intros [= <-].
  destruct (fold_max_spec x l) as [Hin Hub].
  set (m := fold_right Z.max x l) in *.
  assert (Hm : - 2 ^ 63 <= m < 2 ^ 63).
  { rewrite Forall_forall in Hrange. exact (Hrange m Hin). }
  assert (Hlast : Np.int64 (m + 1) = m + 1 /\ m < 2 ^ 63 - 1
                  \/ Np.int64 (m + 1) = - 2 ^ 63 /\ m = 2 ^ 63 - 1).
  { destruct (Z.eq_dec m (2 ^ 63 - 1)) as [->|Hne]; [right; split; reflexivity|].
    left. split; [apply int64_small|]; lia. }
  split; split.
  - intros Hs.
    do 8 (apply StronglySorted_inv in Hs as [Hs _]).
    apply StronglySorted_inv in Hs as [_ Hall].
    apply Forall_cons in Hall as [H _].
    destruct Hlast as [[Heq Hlt] | [Heq _]]; [|lia].
    split; [exists m; split; [exact Hin | lia]|].
    apply Forall_forall. intros a Ha. specialize (Hub a Ha). lia.
  - intros [(a & Ha & Hle) Hall]. specialize (Hub a Ha).
    rewrite Forall_forall in Hall. specialize (Hall m Hin).
    destruct Hlast as [[-> _] | [_ ->]]; [|lia].
    repeat (constructor; [|repeat (constructor; try lia)]). constructor.
  - cbn [List.last]. intros Hl.
    destruct Hlast as [[Heq Hlt] | [_ Heq]].
    + left. apply Forall_forall. intros a Ha. specialize (Hub a Ha). lia.
    + right. now rewrite <- Heq.
  - cbn [List.last]. intros [Hall | Hmax].
    + rewrite Forall_forall in Hall. specialize (Hall m Hin).
      destruct Hlast as [[-> _] | [-> _]]; lia.
    + specialize (Hub _ Hmax).
      destruct Hlast as [[_ Hlt] | [-> _]]; lia.
Qed.

(** A column below 999, and a column that holds the largest [int64]. *)
Lemma histogram_bins_ascend_witness :
  ((StronglySorted Z.le [0; 5; 10; 20; 50; 100; 200; 500; 1000; 41] <->
    (exists a, a ∈ [3; 40; 7] /\ 999 <= a) /\ Forall (fun a => a < 2 ^ 63 - 1) [3; 40; 7]) /\
   (List.last [0; 5; 10; 20; 50; 100; 200; 500; 1000; 41] 0 < 1000 <->
    Forall (fun a => a < 999) [3; 40; 7] \/ 2 ^ 63 - 1 ∈ [3; 40; 7])) /\
  ((StronglySorted Z.le [0; 5; 10; 20; 50; 100; 200; 500; 1000; - 2 ^ 63] <->
    (exists a, a ∈ [5; 2 ^ 63 - 1] /\ 999 <= a)
    /\ Forall (fun a => a < 2 ^ 63 - 1) [5; 2 ^ 63 - 1]) /\
   (List.last [0; 5; 10; 20; 50; 100; 200; 500; 1000; - 2 ^ 63] 0 < 1000 <->
    Forall (fun a => a < 999) [5; 2 ^ 63 - 1] \/ 2 ^ 63 - 1 ∈ [5; 2 ^ 63 - 1])).
Proof.
  split.
  - apply (histogram_bins_ascend [3; 40; 7]); [repeat constructor; lia | reflexivity].
  - apply (histogram_bins_ascend [5; 2 ^ 63 - 1]); [repeat constructor; lia | reflexivity].
Defined.

End chart_columns.

(** ** Pages of token ids compose *)

Lemma append_token_id_from nft token_ids :
  append_token_id nft token_ids
  = ((token_ids ++ fst (append_token_id nft []))%list, snd (append_token_id nft [])).
Proof.
  unfold append_token_id.
  destruct (token_id_of nft) as [[| | | |s| |]|]; cbn [fst snd app];
    rewrite ?app_nil_r; try reflexivity.
  destruct (if PyStr.startswith "0x" s then _ else _); cbn [fst snd app];
    rewrite ?app_nil_r; reflexivity.
Qed.

Lemma append_token_ids_from nfts : forall token_ids,
  append_token_ids nfts token_ids
  = ((token_ids ++ fst (append_token_ids nfts []))%list, snd (append_token_ids nfts [])).
Proof.
  induction nfts as [|nft nfts IH]; intros token_ids; cbn [append_token_ids].
  - cbn [fst snd]. now rewrite app_nil_r.
  - rewrite (append_token_id_from nft token_ids).
    destruct (append_token_id nft []) as [ids []] eqn:Hnft; cbn [fst snd app].
    + rewrite (IH (token_ids ++ ids)%list), (IH ids). cbn [fst snd].
      now rewrite app_assoc.
    + reflexivity.
Qed.

(** X25.  What a page adds to the list of token ids does
    not depend on what was collected before: the records of a page append
    the same ids, and end the same way, after any earlier pages; and two
    lists of records processed one after the other append what each
    appends alone. *)
Theorem token_ids_of_pages_compose (nfts nfts' : list json) (token_ids : list Z) :
  append_token_ids nfts token_ids
  = ((token_ids ++ fst (append_token_ids nfts []))%list, snd (append_token_ids nfts [])) /\
  (snd (append_token_ids nfts []) = Completed ->
   append_token_ids (nfts ++ nfts')%list token_ids
   = ((token_ids ++ fst (append_token_ids nfts []) ++ fst (append_token_ids nfts' []))%list,
      snd (append_token_ids nfts' []))).
Proof.
  split; [apply append_token_ids_from|].
  revert token_ids. induction nfts as [|nft nfts IH]; intros token_ids Hdone.
  - cbn [app append_token_ids fst]. apply append_token_ids_from.
  - cbn [app append_token_ids] in Hdone |- *.
    rewrite (append_token_id_from nft token_ids).
    destruct (append_token_id nft []) as [ids []] eqn:Hnft; cbn [fst snd app] in Hdone |- *.
    + rewrite (append_token_ids_from nfts ids) in Hdone |- *. cbn [fst snd] in Hdone |- *.
      rewrite (IH (token_ids ++ ids)%list Hdone). now rewrite <- !app_assoc.
    + discriminate Hdone.
Qed.

(** X26.  The loop has no bound of its own: while the
    server answers every request with a page of records and a next page
    key, [get_collection_nfts] goes on asking, however many answers it has
    had. *)
Theorem fetch_has_no_page_limit (result k : json) (nfts : list json)
    (contract_address : string) (start_token_id end_token_id : option string)
    (page_size delay_ms : Z) (n : nat) :
  Py.contains "error" result = Some false ->
  nfts_of result = Some nfts -> nfts <> [] ->
  snd (append_token_ids nfts []) = Completed ->
  next_page_key_of result = Some k -> Py.truthy k = true ->
  get_collection_nfts (replicate n (fun _ => HttpJson result))
    contract_address start_token_id end_token_id page_size delay_ms = None.
Proof.
  intros Herr Hnfts Hne Hdone Hkey Htruthy. unfold get_collection_nfts.
  generalize JNull. generalize (@nil Z).
  induction n as [|n IH]; intros token_ids page_key; [reflexivity|].
  cbn [replicate page_loop].
  rewrite page_step_json, Herr, Hnfts, append_token_ids_from, Hdone, Hkey, Htruthy.
  destruct nfts as [|nft nfts']; [congruence|].
  cbn [negb orb length Nat.eqb]. apply IH.
Qed.

Lemma fetch_has_no_page_limit_witness :
  get_collection_nfts (replicate 7 (fun _ => HttpJson Sample.page_of_50))
    "0xC0FFEE" None None 100 0 = None.
Proof.
  apply (fetch_has_no_page_limit Sample.page_of_50 (JStr "page-2")
           (map Sample.record (seq 1 50))).
  - reflexivity.
  - reflexivity.
  - discriminate.
  - vm_compute. reflexivity.
  - reflexivity.
  - reflexivity.
Defined.

(** * Stored token ids, failed fetches and exit statuses *)

(** ** The records behind a holder map *)

Section records.

Context (R : json -> Prop) (network : string).

Lemma holders_from_empty : holders_from R network ∅.
Proof. intros a S s H. now rewrite lookup_empty in H. Qed.

Lemma holders_add_from nft owner token_id s h :
  R nft -> owner_address_of nft = Some (JStr owner) ->
  token_id_of nft = Some token_id -> token_id_hex token_id = Some (JStr s) ->
  holders_from R network h ->
  holders_from R network (holders_add (format_owner network owner) (TStr s) h).
Proof.
  intros HR Ho Hid Hhex Hh a S s'. unfold holders_add.
  destruct (decide (format_owner network owner = a)) as [<-|Hne].
  - rewrite lookup_insert_eq. intros [= <-] [Hs|Hs]%elem_of_union.
    + destruct (h !! format_owner network owner) as [S0|] eqn:Ha; cbn [default] in Hs;
        [now apply (Hh _ S0)|].
      now apply elem_of_empty in Hs.
    + apply elem_of_singleton in Hs. injection Hs as ->.
      now exists nft, owner, token_id.
  - rewrite lookup_insert_ne by assumption. apply Hh.
Qed.

Lemma holders_add_other_from o e h :
  (forall s, e <> TStr s) ->
  holders_from R network h -> holders_from R network (holders_add o e h).
Proof.
  intros He Hh a S s. unfold holders_add.
  destruct (decide (o = a)) as [->|Hne].
  - rewrite lookup_insert_eq. intros [= <-] [Hs|Hs]%elem_of_union.
    + destruct (h !! a) as [S0|] eqn:Ha; cbn [default] in Hs; [now apply (Hh a S0)|].
      now apply elem_of_empty in Hs.
    + apply elem_of_singleton in Hs. now destruct (He s).
  - rewrite lookup_insert_ne by assumption. apply Hh.
Qed.

Lemma holders_touch_from o h :
  holders_from R network h -> holders_from R network (holders_touch o h).
Proof.
  intros Hh a S s. unfold holders_touch.
  destruct (decide (o = a)) as [->|Hne].
  - rewrite lookup_insert_eq. intros [= <-] Hs.
    destruct (h !! a) as [S0|] eqn:Ha; cbn [default] in Hs; [now apply (Hh a S0)|].
    now apply elem_of_empty in Hs.
  - rewrite lookup_insert_ne by assumption. apply Hh.
Qed.

Lemma process_nft_from nft h :
  R nft -> holders_from R network h ->
  holders_from R network (fst (process_nft network nft h)).
Proof.
  intros HR Hh. unfold process_nft.
  destruct (owner_address_of nft) as [owner|] eqn:Ho; [|exact Hh].
  destruct (token_id_of nft) as [token_id|] eqn:Hid; [|exact Hh].
  destruct (Py.truthy owner && Py.truthy token_id); [|exact Hh].
  destruct owner as [| | | |o| |]; try exact Hh.
  destruct (token_id_hex token_id) as [t|] eqn:Ht; [|exact Hh].
  destruct (hashable t) as [e|] eqn:He; cbn [fst]; [|now apply holders_touch_from].
  destruct t as [|b|z|q|s|l|d]; cbn [hashable] in He; try discriminate;
    injection He as <-;
    first [ now apply (holders_add_from nft o token_id s)
          | apply holders_add_other_from; [intros s'; discriminate | exact Hh] ].
Qed.

Lemma process_nfts_from nfts : forall h,
  Forall R nfts -> holders_from R network h ->
  holders_from R network (fst (process_nfts network nfts h)).
Proof.
  induction nfts as [|nft nfts IH]; intros h Hall Hh; [exact Hh|].
  apply Forall_cons in Hall as [HR Hall]. rewrite process_nfts_cons.
  pose proof (process_nft_from nft h HR Hh) as Hn.
  destruct (process_nft network nft h) as [h' []]; cbn [fst] in Hn |- *;
    [now apply IH | exact Hn].
Qed.

End records.

Section page_loop_records.

Context {S : Type} (body : list json -> S -> S * status) (params : json -> request).

(** An invariant that the body keeps on the records of an answer is kept
    by the iteration that reads the answer. *)
Lemma page_step_records (I : S -> Prop) response acc :
  (forall result nfts a, response = HttpJson result -> nfts_of result = Some nfts ->
                         I a -> I (fst (body nfts a))) ->
  I acc -> I (fst (page_step body response acc)).
Proof.
  intros Hbody Hacc. destruct response as [|result]; [exact Hacc|].
  rewrite page_step_json.
  destruct (Py.contains "error" result) as [[]|]; try exact Hacc.
  destruct (nfts_of result) as [nfts|] eqn:Hnfts; [|exact Hacc].
  pose proof (Hbody result nfts acc eq_refl Hnfts Hacc) as Hb.
  destruct (body nfts acc) as [acc' []]; cbn [fst] in Hb; [|exact Hb].
  destruct (next_page_key_of result) as [key|]; [|exact Hb].
  now destruct (_ || _).
Qed.

Lemma page_loop_records (I : S -> Prop) api : forall page_key acc acc',
  (forall respond req result nfts a,
     respond ∈ api -> respond req = HttpJson result -> nfts_of result = Some nfts ->
     I a -> I (fst (body nfts a))) ->
  I acc -> page_loop body params api page_key acc = Some acc' -> I acc'.
Proof.
  induction api as [|respond api IH]; intros page_key acc acc' Hbody Hacc; [discriminate|].
  cbn [page_loop].
  assert (Hs : I (fst (page_step body (respond (params page_key)) acc))).
  { apply page_step_records; [|exact Hacc]. intros result nfts a Hr.
    apply (Hbody respond (params page_key)); [left | exact Hr]. }
  destruct (page_step body (respond (params page_key)) acc) as [acc1 [key|]]; cbn [fst] in Hs.
  - apply IH; [|exact Hs]. intros r req result nfts a Hin. apply Hbody. now right.
  - now intros [= <-].
Qed.

End page_loop_records.

Section stored_token_ids.

(** The token ids of a holder map at the end of the loop come from records
    the server sent. *)
Lemma collected_from_records api contract_address network start_token_id end_token_id
    page_size h :
  collect_holders api contract_address network start_token_id end_token_id page_size = Some h ->
  holders_from (sent_by api) network h.
Proof.
  unfold collect_holders.
  apply (page_loop_records _ _ (holders_from (sent_by api) network));
    [|apply holders_from_empty].
  intros respond req result nfts a Hin Hreq Hnfts Ha.
  apply process_nfts_from; [|exact Ha].
  apply Forall_forall. intros nft Hnft. now exists respond, req, result, nfts.
Qed.

Lemma returned_document api contract_address network collection_name description
    start_token_id end_token_id page_size delay_ms block_height doc :
  get_collection_holders api contract_address network collection_name description
    start_token_id end_token_id page_size delay_ms block_height = Returned doc ->
  exists h,
    collect_holders api contract_address network start_token_id end_token_id page_size
    = Some h /\
    snapshot_data_of h = Some (snapshot doc).
Proof.
  unfold get_collection_holders.
  destruct (collect_holders _ _ _ _ _ _) as [h|]; [|discriminate].
  unfold build_snapshot.
  destruct (snapshot_data_of h) as [data|] eqn:Hdata; [|discriminate].
  intros [= <-]. exists h. split; [reflexivity | exact Hdata].
Qed.

(** What lines 126-131 write for a token id, by its form. *)
Lemma stored_string_of_token_id token_id s :
  token_id_hex token_id = Some (JStr s) ->
  stored_as token_id s /\
  match token_id_value token_id with
  | Some z => s = PyInt.hex z /\ PyInt.int_of_string 16 s = Some z /\
              (0 <= z -> minimal_hex s = true)
  | None => token_id = JStr s
  end.
Proof.
  destruct token_id as [|b|z|q|raw|l|d];
    cbn [token_id_hex stored_as token_id_value]; try discriminate.
  - intros [= <-]. split; [reflexivity|].
    split; [reflexivity|]. split; [apply int_of_string_hex_any|].
    intros Hz. now apply minimal_hex_hex.
  - intros [= <-]. split; [reflexivity|].
    split; [reflexivity|]. split; [apply int_of_string_hex_any|].
    intros Hz. now apply minimal_hex_hex.
  - destruct (PyStr.startswith "0x" raw); [now intros [= <-]|].
    destruct (PyInt.int_of_string 10 raw) as [z|]; [|discriminate].
    cbn [mbind option_bind]. intros [= <-]. split; [now exists z|].
    split; [reflexivity|]. split; [apply int_of_string_hex_any|].
    intros Hz. now apply minimal_hex_hex.
Qed.

(** The sort has a key for every token id exactly when the snapshot data
    is built. *)
Lemma sortable_iff h : sortable h <-> is_Some (snapshot_data_of h).
Proof.
  split.
  - intros Hh. destruct (snapshot_data_of h) as [data|] eqn:Hdata; [now exists data|].
    apply snapshot_data_of_None in Hdata as (a & S & t & Ha & Ht & Hk).
    destruct (Hh a S t Ha Ht) as [k Hk']. congruence.
  - intros [data Hdata] a S t Ha Ht.
    destruct (hex_key t) as [k|] eqn:Hk; [now exists k|].
    assert (snapshot_data_of h = None) by (apply snapshot_data_of_None; now exists a, S, t).
    congruence.
Qed.

Lemma not_sortable h : ~ sortable h <-> snapshot_data_of h = None.
Proof.
  rewrite sortable_iff. destruct (snapshot_data_of h) as [data|].
  - split; [intros H; destruct H; now exists data | discriminate].
  - split; [reflexivity | intros _ [data H]; discriminate].
Qed.

(** The snapshot data lists the holder map. *)
Lemma snapshot_data_lists h data :
  snapshot_data_of h = Some data ->
  map fst data ≡ₚ map fst (map_to_list h) /\
  (forall a ids, (a, ids) ∈ data ->
     exists S, h !! a = Some S /\ TStr <$> ids ≡ₚ elements S) /\
  (data = [] <-> h = ∅).
Proof.
  intros Hdata.
  pose proof (snapshot_data_addresses _ _ Hdata) as Haddr.
  pose proof (snapshot_data_of_spec _ _ Hdata) as Hspec.
  assert (Hperm : map fst data ≡ₚ map fst (map_to_list h)).
  { rewrite Haddr, !map_fmap. now rewrite merge_sort_Permutation. }
  assert (Hlen : length data = size h).
  { rewrite <- length_map_to_list, <- (length_map fst data), Hperm. apply length_map. }
  split; [exact Hperm|]. split.
  - intros a ids Hin. apply list_elem_of_lookup in Hin as [i Hi].
    destruct (Forall2_lookup_r _ _ _ _ _ Hspec Hi) as ([a' S] & Hitem & Ha & HS).
    cbn [fst snd] in Ha, HS. subst a'. exists S. split.
    + apply elem_of_map_to_list. rewrite <- (merge_sort_Permutation addr_le).
      apply list_elem_of_lookup. now exists i.
    + now apply sort_token_ids_elements.
  - split.
    + intros ->. apply map_size_empty_iff. now rewrite <- Hlen.
    + intros ->. rewrite map_size_empty in Hlen. now apply nil_length_inv.
Qed.

End stored_token_ids.

(** C4, as amended.  Every token-id string of a document that
    [get_collection_holders] returns was written for a record the server
    sent, under the address of its owner, and [int(x, 16)] reads it.  A
    token id given as an integer or as a decimal string of value z is stored
    as [hex(z)]: [int(x, 16)] reads z back, and for z >= 0 the string is
    lower-case minimal hex.  A token id given as a string that starts with
    [0x] is stored as it came.  Every token id written by
    [process_og_snapshot] is [hex(i)] of a row number i >= 1, lower-case
    minimal hex. *)
Theorem stored_token_id_form :
  (forall (api : list (request -> http))
          (contract_address network collection_name description : string)
          (start_token_id end_token_id : option string) (page_size delay_ms : Z)
          (block_height : option Z) (doc : snapshot_doc)
          (a : string) (ids : list string) (s : string),
     get_collection_holders api contract_address network collection_name description
       start_token_id end_token_id page_size delay_ms block_height = Returned doc ->
     (a, ids) ∈ snapshot doc -> s ∈ ids ->
     exists nft owner token_id,
       sent_by api nft /\
       owner_address_of nft = Some (JStr owner) /\ a = format_owner network owner /\
       token_id_of nft = Some token_id /\
       stored_as token_id s /\
       match token_id_value token_id with
       | Some z => s = PyInt.hex z /\ PyInt.int_of_string 16 s = Some z /\
                   (0 <= z -> minimal_hex s = true)
       | None => token_id = JStr s
       end /\
       is_Some (PyInt.int_of_string 16 s)) /\
  (forall (rows : list og_row) (a : string) (ids : list string) (s : string),
     (a, ids) ∈ snapshot (process_og_snapshot rows) -> s ∈ ids ->
     exists i, 0 < i /\ ids = [s] /\ s = PyInt.hex i /\
               PyInt.int_of_string 16 s = Some i /\ minimal_hex s = true).
Proof.
  split.
  - intros api contract_address network collection_name description start_token_id
      end_token_id page_size delay_ms block_height doc a ids s Hdoc He Hs.
    destruct (returned_document _ _ _ _ _ _ _ _ _ _ _ Hdoc) as (h & Hh & Hdata).
    destruct (snapshot_data_members h _ a ids s Hdata He Hs) as (S & Ha & HS).
    destruct (collected_from_records _ _ _ _ _ _ _ Hh a S s Ha HS)
      as (nft & owner & token_id & Hsent & Ho & Haddr & Hid & Hhex).
    destruct (stored_string_of_token_id token_id s Hhex) as [Hstored Hform].
    exists nft, owner, token_id. repeat (split; [assumption|]).
    assert (Hsort : sortable h) by (apply sortable_iff; eauto).
    destruct (Hsort a S (TStr s) Ha HS) as [k Hk]. cbn [hex_key] in Hk.
    destruct (PyInt.int_of_string 16 s) as [z|]; [now exists z | discriminate].
  - intros rows a ids s He Hs.
    destruct (og_document_tokens rows a ids He) as (i & Hi & ->).
    apply list_elem_of_singleton in Hs as ->.
    exists i. split; [exact Hi|]. split; [reflexivity|]. split; [reflexivity|].
    split; [apply int_of_string_hex_any | apply minimal_hex_hex; lia].
Qed.

(** A page of two records of one owner, token ids ["0x00FF"] and ["26"]:
    the first is stored as it came, the second as ["0x1a"]. *)
Lemma stored_token_id_form_witness :
  (exists nft owner token_id,
     sent_by [fun _ => HttpJson (Sample.single_page [Sample.record_padded_hex; Sample.record_ok])]
       nft /\
     owner_address_of nft = Some (JStr owner) /\ "0xabc" = format_owner "starknet" owner /\
     token_id_of nft = Some token_id /\
     stored_as token_id "0x1a" /\
     match token_id_value token_id with
     | Some z => "0x1a" = PyInt.hex z /\ PyInt.int_of_string 16 "0x1a" = Some z /\
                 (0 <= z -> minimal_hex "0x1a" = true)
     | None => token_id = JStr "0x1a"
     end /\
     is_Some (PyInt.int_of_string 16 "0x1a")) /\
  (exists i, 0 < i /\ ["0x2"] = ["0x2"] /\ "0x2" = PyInt.hex i /\
             PyInt.int_of_string 16 "0x2" = Some i /\ minimal_hex "0x2" = true).
Proof.
  destruct stored_token_id_form as [Hholders Hog]. split.
  - apply (Hholders _ "0xC0FFEE" "starknet" "n" "d" None None 100 200 None
             MoreSamples.two_token_doc "0xabc" ["0x1a"; "0x00FF"]).
    + vm_compute. reflexivity.
    + cbn [snapshot MoreSamples.two_token_doc]. apply list_elem_of_here.
    + apply list_elem_of_here.
  - apply (Hog Sample.og_rows "0xa" ["0x2"]).
    + change (snapshot (process_og_snapshot Sample.og_rows))
        with [("0xb", ["0x1"]); ("0xa", ["0x2"])].
      apply list_elem_of_further, list_elem_of_here.
    + apply list_elem_of_here.
Defined.

(** C5.  When the fetch of a page fails, by an exception of the transport or
    by a body with an [error] field, both collectors stop at once and keep
    what the pages before have accumulated; the answers after the failed
    one are never asked for.  [get_collection_nfts] returns the list of
    token ids accumulated.  [get_collection_holders] returns the document
    that lists the holder map accumulated when [int(x, 16)] reads every
    token id of the map; when it does not read one of them, the sort of
    line 162, outside the [try], raises and nothing is returned. *)
Theorem failed_fetch_returns_accumulated
    (earlier rest : list (request -> http)) (respond : request -> http)
    (contract_address network collection_name description : string)
    (start_token_id end_token_id : option string) (page_size delay_ms : Z)
    (block_height : option Z) :
  let params := build_params contract_address page_size start_token_id end_token_id in
  (forall page_key token_ids,
     after_pages append_token_ids params earlier JNull [] = Some (page_key, token_ids) ->
     fetch_failed (respond (params page_key)) = true ->
     get_collection_nfts (earlier ++ respond :: rest) contract_address
       start_token_id end_token_id page_size delay_ms = Some token_ids) /\
  (forall page_key holders_tokens,
     after_pages (process_nfts network) params earlier JNull ∅
       = Some (page_key, holders_tokens) ->
     fetch_failed (respond (params page_key)) = true ->
     (sortable holders_tokens ->
      exists doc,
        get_collection_holders (earlier ++ respond :: rest) contract_address network
          collection_name description start_token_id end_token_id page_size delay_ms
          block_height = Returned doc /\
        map fst (snapshot doc) ≡ₚ map fst (map_to_list holders_tokens) /\
        (forall a ids, (a, ids) ∈ snapshot doc ->
           exists S, holders_tokens !! a = Some S /\ TStr <$> ids ≡ₚ elements S)) /\
     (~ sortable holders_tokens ->
      get_collection_holders (earlier ++ respond :: rest) contract_address network
        collection_name description start_token_id end_token_id page_size delay_ms
        block_height = Uncaught)).
Proof.
  intros params. split.
  - intros page_key token_ids Hafter Hfail.
    unfold get_collection_nfts. now apply (page_loop_failed _ _ _ _ _ _ _ page_key).
  - intros page_key holders_tokens Hafter Hfail.
    unfold get_collection_holders, collect_holders.
    rewrite (page_loop_failed _ _ _ _ _ _ _ page_key _ Hafter Hfail).
    unfold build_snapshot. split.
    + intros [data Hdata]%sortable_iff. rewrite Hdata.
      eexists. split; [reflexivity|]. cbn [snapshot].
      destruct (snapshot_data_lists _ _ Hdata) as (Hperm & Hids & _). now split.
    + intros Hnone%not_sortable. now rewrite Hnone.
Qed.

(** The scenario of the specification: page 1 gives 50 records, page 2
    answers [{error: "rate limited"}]; the 50 token ids of page 1 are
    returned, and the document lists the 50 holders of page 1.  And the
    same failure after a first page whose record has the token id
    ["0xZZ"]: nothing is returned. *)
Lemma failed_fetch_returns_accumulated_witness :
  get_collection_nfts
    [fun _ => HttpJson Sample.page_of_50; fun _ => HttpJson Sample.rate_limited]
    "0xC0FFEE" None None 100 200 = Some (map Z.of_nat (seq 1 50)) /\
  (exists doc,
     get_collection_holders
       [fun _ => HttpJson Sample.page_of_50; fun _ => HttpJson Sample.rate_limited]
       "0xC0FFEE" "starknet" "n" "d" None None 100 200 None = Returned doc /\
     snapshot doc = map (fun i : nat => (PyInt.hex (4096 + Z.of_nat i),
                                         [PyInt.hex (Z.of_nat i)])) (seq 1 50)) /\
  get_collection_holders
    [fun _ => HttpJson MoreSamples.page_bad_hex; fun _ => HttpJson Sample.rate_limited]
    "0xC0FFEE" "starknet" "n" "d" None None 100 200 None = Uncaught.
Proof.
  pose (params := build_params "0xC0FFEE" 100 None None).
  pose (pages := after_pages (process_nfts "starknet") params
                   [fun _ => HttpJson Sample.page_of_50] JNull ∅).
  assert (Hkey : fst <$> pages = Some (JStr "page-2")) by (vm_compute; reflexivity).
  assert (Hpages : pages = Some (JStr "page-2", default ∅ (snd <$> pages))).
  { destruct pages as [[k h]|]; [|discriminate Hkey].
    injection Hkey as ->. reflexivity. }
  pose (pages' := after_pages (process_nfts "starknet") params
                    [fun _ => HttpJson MoreSamples.page_bad_hex] JNull ∅).
  assert (Hkey' : fst <$> pages' = Some (JStr "page-2")) by (vm_compute; reflexivity).
  assert (Hpages' : pages' = Some (JStr "page-2", default ∅ (snd <$> pages'))).
  { destruct pages' as [[k h]|]; [|discriminate Hkey'].
    injection Hkey' as ->. reflexivity. }
  destruct (failed_fetch_returns_accumulated
              [fun _ => HttpJson Sample.page_of_50] []
              (fun _ => HttpJson Sample.rate_limited)
              "0xC0FFEE" "starknet" "n" "d" None None 100 200 None)
    as [Hids Hdoc].
  destruct (failed_fetch_returns_accumulated
              [fun _ => HttpJson MoreSamples.page_bad_hex] []
              (fun _ => HttpJson Sample.rate_limited)
              "0xC0FFEE" "starknet" "n" "d" None None 100 200 None)
    as [_ Hbad].
  split; [|split].
  - apply (Hids (JStr "page-2")); [vm_compute; reflexivity | reflexivity].
  - destruct (Hdoc (JStr "page-2") _ Hpages eq_refl) as [Hreturned _].
    destruct Hreturned as (doc & Hreturned & _).
    { apply sortable_iff.
      assert (H : bool_decide (is_Some (snapshot_data_of (default ∅ (snd <$> pages)))) = true)
        by (vm_compute; reflexivity).
      now apply bool_decide_eq_true in H. }
    exists doc. split; [exact Hreturned|].
    cbn [app] in Hreturned.
    assert (Hrun : (snapshot <$>
                     match get_collection_holders
                             [fun _ => HttpJson Sample.page_of_50;
                              fun _ => HttpJson Sample.rate_limited]
                             "0xC0FFEE" "starknet" "n" "d" None None 100 200 None with
                     | Returned d => Some d
                     | _ => None
                     end)
                   = Some (map (fun i : nat => (PyInt.hex (4096 + Z.of_nat i),
                                                [PyInt.hex (Z.of_nat i)])) (seq 1 50)))
      by (vm_compute; reflexivity).
    rewrite Hreturned in Hrun. now injection Hrun.
  - destruct (Hbad (JStr "page-2") _ Hpages' eq_refl) as [_ Hraise].
    apply Hraise. apply not_sortable.
    assert (H : bool_decide (snapshot_data_of (default ∅ (snd <$> pages')) = None) = true)
      by (vm_compute; reflexivity).
    now apply bool_decide_eq_true in H.
Defined.

(** C9.  [main] of [scrape_token_ids.py] writes no file and exits with
    status 1 when the list of token ids is empty, and saves the output with
    status 0 when it holds a token id.  [main] of [scrape_holders.py]
    writes no file and exits with status 1 when the holder map collected is
    empty; when the map holds a record and [int(x, 16)] reads every token
    id of it, the document is saved and the exit status is 0; when a token
    id of the map is not read by [int(x, 16)], the sort raises: no file is
    written and the process ends with status 1, whatever was collected. *)
Theorem empty_result_exit_status
    (api : list (request -> http)) (args : holders_args) (targs : token_ids_args) :
  (forall holders_tokens, holders_collected api args = Some holders_tokens ->
     exists r, ScrapeHolders.main api args = Some r /\
       (holders_tokens = ∅ -> saved r = None /\ exit_status r = 1) /\
       (holders_tokens <> ∅ -> sortable holders_tokens ->
          exists doc, holders_call api args = Returned doc /\ snapshot doc <> [] /\
            saved r = Some (holders_output args, doc) /\ exit_status r = 0) /\
       (~ sortable holders_tokens -> saved r = None /\ exit_status r = 1)) /\
  (forall token_ids, token_ids_call api targs = Some token_ids ->
     exists r, ScrapeTokenIds.main api targs = Some r /\
       (token_ids = [] -> saved r = None /\ exit_status r = 1) /\
       (token_ids <> [] ->
          saved r = Some (targ_output targs, (targ_format targs, unique_ids token_ids))
          /\ exit_status r = 0)).
Proof.
  split.
  - intros h Hh. unfold ScrapeHolders.main, holders_call, get_collection_holders.
    unfold holders_collected in Hh. cbv zeta in Hh |- *. rewrite Hh.
    unfold build_snapshot.
    destruct (snapshot_data_of h) as [data|] eqn:Hdata.
    + destruct (snapshot_data_lists _ _ Hdata) as (_ & _ & Hempty).
      cbn [snapshot]. destruct data as [|e data].
      * eexists. split; [reflexivity|]. split; [now intros _|]. split.
        -- intros Hne _. destruct Hne. now apply Hempty.
        -- intros Hns. apply not_sortable in Hns. congruence.
      * eexists. split; [reflexivity|]. split; [|split].
        -- intros ->. assert (e :: data = []) by now apply Hempty. discriminate.
        -- intros _ _. eexists. split; [reflexivity|]. cbn [snapshot saved exit_status].
           split; [discriminate|]. split; reflexivity.
        -- intros Hns. apply not_sortable in Hns. congruence.
    + eexists. split; [reflexivity|]. split; [now intros _|]. split.
      * intros _ Hs. apply sortable_iff in Hs as [data Hs]. congruence.
      * now intros _.
  - intros token_ids Hids. unfold ScrapeTokenIds.main. rewrite Hids.
    destruct token_ids as [|i ids]; eexists; (split; [reflexivity|]);
      split; intros H; try congruence; split; reflexivity.
Qed.

(** A run of each tool on one page: one record gives a saved file and status
    0, no record gives status 1 and no file; and a run of
    [scrape_holders.py] whose one record has the token id ["0xZZ"] ends
    with status 1 and no file. *)
Lemma empty_result_exit_status_witness :
  (exists r, ScrapeHolders.main [fun _ => HttpJson (Sample.single_page [Sample.record_ok])]
               Sample.holders_args_sample = Some r /\
     exit_status r = 0 /\
     option_map fst (saved r) = Some "demo_set_snapshot_starknet.json") /\
  (exists r, ScrapeTokenIds.main [fun _ => HttpJson (Sample.single_page [])]
               Sample.token_ids_args_sample = Some r /\
     saved r = None /\ exit_status r = 1) /\
  (exists r, ScrapeHolders.main [fun _ => HttpJson MoreSamples.last_page_bad_hex]
               Sample.holders_args_sample = Some r /\
     saved r = None /\ exit_status r = 1).
Proof.
  pose (run_ok := holders_collected
                    [fun _ => HttpJson (Sample.single_page [Sample.record_ok])]
                    Sample.holders_args_sample).
  assert (Hok : run_ok = Some (default ∅ run_ok)).
  { assert (H : bool_decide (is_Some (size <$> run_ok)) = true) by (vm_compute; reflexivity).
    apply bool_decide_eq_true in H as [n H]. destruct run_ok; [reflexivity | discriminate]. }
  pose (run_bad := holders_collected [fun _ => HttpJson MoreSamples.last_page_bad_hex]
                     Sample.holders_args_sample).
  assert (Hbad : run_bad = Some (default ∅ run_bad)).
  { assert (H : bool_decide (is_Some (size <$> run_bad)) = true) by (vm_compute; reflexivity).
    apply bool_decide_eq_true in H as [n H]. destruct run_bad; [reflexivity | discriminate]. }
  destruct (empty_result_exit_status
              [fun _ => HttpJson (Sample.single_page [Sample.record_ok])]
              Sample.holders_args_sample Sample.token_ids_args_sample)
    as [Hholders _].
  destruct (Hholders _ Hok) as (r & Hr & _ & Hsaved & _).
  destruct (empty_result_exit_status
              [fun _ => HttpJson (Sample.single_page [])]
              Sample.holders_args_sample Sample.token_ids_args_sample)
    as (_ & Hids).
  destruct (Hids []) as (r' & Hr' & Hnone & _).
  { vm_compute. reflexivity. }
  destruct (empty_result_exit_status
              [fun _ => HttpJson MoreSamples.last_page_bad_hex]
              Sample.holders_args_sample Sample.token_ids_args_sample)
    as [Hholders' _].
  destruct (Hholders' _ Hbad) as (r'' & Hr'' & _ & _ & Hraise).
  split; [|split].
  - exists r. split; [exact Hr|].
    destruct Hsaved as (doc & _ & _ & Hs & Hx).
    + intros Hempty.
      assert (H : size (default ∅ run_ok) = 1%nat) by (vm_compute; reflexivity).
      rewrite Hempty, map_size_empty in H. discriminate H.
    + apply sortable_iff.
      assert (H : bool_decide (is_Some (snapshot_data_of (default ∅ run_ok))) = true)
        by (vm_compute; reflexivity).
      now apply bool_decide_eq_true in H.
    + split; [exact Hx|]. rewrite Hs. reflexivity.
  - exists r'. split; [exact Hr'|]. now apply Hnone.
  - exists r''. split; [exact Hr''|]. apply Hraise. apply not_sortable.
    assert (H : bool_decide (snapshot_data_of (default ∅ run_bad) = None) = true)
      by (vm_compute; reflexivity).
    now apply bool_decide_eq_true in H.
Defined.
